(** * Link classification and locator resolution of the test helpers

    A shallow embedding of [src/helpers/helpers.ts] (the [LinkType]
    classifier and its pattern tables) and of the locator composition
    that the methods of [src/helpers/pageClass.ts] repeat, with the
    properties the specification states about them. *)

From Stdlib Require Import List NArith ZArith Bool String Ascii Arith Lia.
Import ListNotations.


(** ** JavaScript strings

    A JavaScript string is a sequence of UTF-16 code units.  The URL side
    of the development keeps that view: a code unit is an [N], a string a
    list of them.  [str] reads a literal. *)

Definition cu := N.
Definition jsstring := list cu.

Definition str (s : string) : jsstring :=
  map N_of_ascii (list_ascii_of_string s).

Fixpoint jseqb (a b : jsstring) : bool :=
  match a, b with
  | [], [] => true
  | x :: a', y :: b' => N.eqb x y && jseqb a' b'
  | _, _ => false
  end.


(** ** Regular expressions

    The fragment of the ECMAScript pattern language the tables of
    [helpers.ts] use: literals, classes, [.], [^], [$], sequence,
    alternation, [*], [+] and [?].  Groups only capture, which [test]
    does not observe, so they leave no trace in the syntax tree. *)

Module RegExp.

(** A class is [.] or a bracket expression given by its ranges. *)
Inductive cls :=
| Dot
| Ranges (rs : list (cu * cu)).

Definition lineTerminator (c : cu) : bool :=
  N.eqb c 10 || N.eqb c 13 || N.eqb c 8232 || N.eqb c 8233.

Definition inRanges (rs : list (cu * cu)) (c : cu) : bool :=
  existsb (fun r => N.leb (fst r) c && N.leb c (snd r)) rs.

(** Canonicalize of the specification of the language, for patterns
    without the [u] flag, on the code units below 128, where it is
    [toUpperCase]; the patterns below hold no other code unit, and a code
    unit from 128 on never canonicalizes to one below. *)
Definition canonicalize (ic : bool) (c : cu) : cu :=
  if ic && N.leb 97 c && N.leb c 122 then (c - 32)%N else c.

Definition lower (c : cu) : cu :=
  if N.leb 65 c && N.leb c 90 then (c + 32)%N else c.

Definition cls_test (ic : bool) (k : cls) (c : cu) : bool :=
  match k with
  | Dot => negb (lineTerminator c)
  | Ranges rs =>
      inRanges rs c
      || (ic && (inRanges rs (canonicalize true c) || inRanges rs (lower c)))
  end.

Inductive regex :=
| Eps
| Chr (k : cls)
| Lit (w : jsstring)
| Bol
| Eol
| Seq (r1 r2 : regex)
| Alt (r1 r2 : regex)
| Star (r : regex).

Definition Plus (r : regex) : regex := Seq r (Star r).
Definition Opt (r : regex) : regex := Alt r Eps.

(** [\d], [\w] and the bracket expressions of the tables: [[\w-]],
    [[\w=]] and [[\w\d]]. *)
Definition d_ranges : list (cu * cu) := [(48, 57)]%N.
Definition w_ranges : list (cu * cu) :=
  [(97, 122); (65, 90); (48, 57); (95, 95)]%N.

Definition digit : cls := Ranges d_ranges.
Definition word : cls := Ranges w_ranges.
Definition word_dash : cls := Ranges (w_ranges ++ [(45, 45)]%N).
Definition word_eq : cls := Ranges (w_ranges ++ [(61, 61)]%N).
Definition word_digit : cls := Ranges (w_ranges ++ d_ranges).

(** *** The backtracking matcher

    [run ic r b s] lists the remainders of [s] that a match of [r]
    starting at the head of [s] can leave; [b] tells whether that head is
    the start of the input, which is all [^] looks at. *)

Fixpoint lit_run (ic : bool) (w s : jsstring) : option jsstring :=
  match w with
  | [] => Some s
  | a :: w' =>
      match s with
      | [] => None
      | c :: s' =>
          if N.eqb (canonicalize ic a) (canonicalize ic c)
          then lit_run ic w' s' else None
      end
  end.

(** Iteration of a body [f]: an iteration that consumes nothing is
    dropped, as RepeatMatcher does, so [fuel] bounds the iterations by the
    length of the input. *)
Fixpoint iter (f : bool -> jsstring -> list jsstring) (fuel : nat)
    (b : bool) (s : jsstring) : list jsstring :=
  s :: match fuel with
       | O => []
       | S n =>
           flat_map (iter f n false)
             (filter (fun s' => Nat.ltb (List.length s') (List.length s)) (f b s))
       end.

Fixpoint run (ic : bool) (r : regex) (b : bool) (s : jsstring)
  : list jsstring :=
  match r with
  | Eps => [s]
  | Chr k =>
      match s with
      | c :: s' => if cls_test ic k c then [s'] else []
      | [] => []
      end
  | Lit w => match lit_run ic w s with Some s' => [s'] | None => [] end
  | Bol => if b then [s] else []
  | Eol => match s with [] => [s] | _ => [] end
  | Seq r1 r2 =>
      flat_map
        (fun s1 => run ic r2 (b && Nat.eqb (List.length s1) (List.length s)) s1)
        (run ic r1 b s)
  | Alt r1 r2 => run ic r1 b s ++ run ic r2 b s
  | Star r1 => iter (run ic r1) (List.length s) b s
  end.

Definition nonempty {A} (l : list A) : bool :=
  match l with [] => false | _ => true end.

(** The loop of RegExpBuiltinExec over the start index. *)
Fixpoint search (ic : bool) (r : regex) (b : bool) (s : jsstring) : bool :=
  nonempty (run ic r b s)
  || match s with
     | [] => false
     | _ :: s' => search ic r false s'
     end.

(** A regular expression object: its pattern and its [i] flag. *)
Record t := mk { source : regex; ignoreCase : bool }.

(** [RegExp.prototype.test]; no pattern here is global or sticky, so the
    search always starts at index 0. *)
Definition test (re : t) (s : jsstring) : bool :=
  search (ignoreCase re) (source re) true s.

End RegExp.

Import RegExp.

Declare Scope regex_scope.
Delimit Scope regex_scope with re.
Bind Scope regex_scope with regex.
Infix ";;" := Seq (at level 61, right associativity) : regex_scope.
Infix "<|>" := Alt (at level 62, right associativity) : regex_scope.
Notation "' s" := (Lit (str s)) (at level 5, s at level 0, format "' s")
  : regex_scope.

Local Open Scope regex_scope.

(** ** The pattern tables of [helpers.ts] *)

Definition videoPattern : RegExp.t :=
  mk ('"http" ;; Opt '"s" ;; '"://" ;; Star (Chr Dot) ;; '"." ;;
      ('"mp4" <|> '"webm" <|> '"ogg" <|> '"mp3" <|> '"wav" <|> '"m4a"
        <|> '"flac" <|> '"aac") ;;
      Opt ('"?" ;; Star (Chr Dot)) ;; Eol)
     false.

Definition gaPatterns : list RegExp.t :=
  [ mk (Bol ;; Opt ('"http" ;; Opt '"s" ;; '"://") ;; Opt '"www." ;;
        ('"analytics.google.com" <|> '"www.google-analytics.com") ;;
        Opt ('"/" ;; Star (Chr Dot)) ;; Eol)
       true;
    mk '"https://googleads.g.doubleclick.net/pagead/id" false ].

Definition youtubePatterns : list RegExp.t :=
  [ mk ('"https://" ;; Opt '"www." ;; '"youtube.com/" ;;
        ('"watch?v=" <|> '"embed/"
          <|> ('"api/stats/" ;;
               ('"playback" <|> '"atr" <|> '"qoe" <|> '"ptracking"
                 <|> '"watchtime") ;; '"?")
          <|> '"ptracking?" <|> '"v/" <|> '"c/" <|> '"user/"
          <|> '"channel/" <|> '"playlist?list=" <|> '"shorts/"
          <|> '"results?search_query=") ;;
        Plus (Chr word_dash) ;;
        Star ('"&" ;; Star (Chr word_eq)))
       false;
    mk ('"https://www.youtube.com/generate_204?" ;; Star (Chr Dot)) false ].

Definition recaptchaPatterns : list RegExp.t :=
  [ mk ('"https://www.google.com/recaptcha/" ;; Star (Chr Dot)) false;
    mk ('"https://www.google.com/recaptcha/api2/" ;; Star (Chr Dot)) false;
    mk ('"https://www.google.com/recaptcha/enterprise/" ;; Star (Chr Dot))
       false ].

Definition exceptSource : regex :=
  '"https://stats.g.doubleclick.net/g/collect?v=" ;; Plus (Chr digit) ;;
  '"&tid=G-" ;; Plus (Chr word_digit) ;;
  '"&cid=" ;; Plus (Chr digit) ;; '"." ;; Plus (Chr digit) ;;
  '"&gtm=" ;; Plus (Chr word_digit) ;;
  '"&aip=" ;; Plus (Chr digit) ;;
  '"&dma=" ;; Plus (Chr digit) ;;
  '"&gcd=" ;; Plus (Chr word_digit) ;;
  '"&npa=" ;; Plus (Chr digit) ;;
  '"&frm=" ;; Plus (Chr digit) ;;
  '"&tag_exp=" ;; Plus (Chr digit).

Definition exceptPattern : RegExp.t := mk exceptSource false.

Local Close Scope regex_scope.

(** ** The classifier *)

(** The string literals [LinkType] returns. *)
Inductive Tag := Video | GA | YT | Ignore | Exception | NONE.

Definition tag_literal (t : Tag) : string :=
  match t with
  | Video => "Video"
  | GA => "GA"
  | YT => "YT"
  | Ignore => "Ignore"
  | Exception => "Exception"
  | NONE => "NONE"
  end.

Section Classifier.

(** [main] and [pageRoutes.financial_results] come from [./routes],
    which is configuration; the classifier is kept parametric in
    them. *)
Variable main : jsstring.
Variable financial_results : jsstring.

Definition exceptUrls : list jsstring :=
  [ str "https://consentcdn.cookiebot.com/consentconfig/7f599eef-471b-4c16-a0c6-40061801485c/localhost/configuration.js";
    main ++ str "api/subscribe";
    str "https://www.carlyle.com/cdn-cgi/challenge-platform/scripts/jsd/main.js" ].

Definition exceptPages : list jsstring := [ main ++ financial_results ].

Definition LinkType (url page : jsstring) : Tag :=
  if test videoPattern url then Video
  else if existsb (fun pattern => test pattern url) gaPatterns then GA
  else if existsb (fun pattern => test pattern url) youtubePatterns then YT
  else if existsb (fun pattern => test pattern url) recaptchaPatterns
  then Ignore
  else if test exceptPattern url then Exception
  else if existsb (fun except => jseqb except url) exceptUrls
          || existsb (fun exceptPage => jseqb exceptPage page) exceptPages
  then Ignore
  else NONE.

End Classifier.


(** ** Declarative reading of a pattern

    [steps r b s s'] holds when [r], without the [i] flag, matches a
    prefix of [s] and leaves [s']; [b] tells whether [s] starts the
    input. *)
Inductive steps : regex -> bool -> jsstring -> jsstring -> Prop :=
| st_eps b s : steps Eps b s s
| st_chr k b c s : cls_test false k c = true -> steps (Chr k) b (c :: s) s
| st_lit w b s : steps (Lit w) b (w ++ s) s
| st_bol s : steps Bol true s s
| st_eol b : steps Eol b [] []
| st_seq r1 r2 b s s1 s2 :
    steps r1 b s s1 ->
    steps r2 (b && Nat.eqb (List.length s1) (List.length s)) s1 s2 ->
    steps (Seq r1 r2) b s s2
| st_alt_l r1 r2 b s s' : steps r1 b s s' -> steps (Alt r1 r2) b s s'
| st_alt_r r1 r2 b s s' : steps r2 b s s' -> steps (Alt r1 r2) b s s'
| st_star_nil r b s : steps (Star r) b s s
| st_star_cons r b s s1 s2 :
    steps r b s s1 -> List.length s1 < List.length s ->
    steps (Star r) false s1 s2 ->
    steps (Star r) b s s2.

(** Patterns without [^], and without [$]. *)
Fixpoint bol_free (r : regex) : bool :=
  match r with
  | Bol => false
  | Seq r1 r2 | Alt r1 r2 => bol_free r1 && bol_free r2
  | Star r1 => bol_free r1
  | _ => true
  end.

Fixpoint eol_free (r : regex) : bool :=
  match r with
  | Eol => false
  | Seq r1 r2 | Alt r1 r2 => eol_free r1 && eol_free r2
  | Star r1 => eol_free r1
  | _ => true
  end.

Definition isnil {A} (l : list A) : bool :=
  match l with [] => true | _ => false end.

(** ** Vocabulary of the statements *)

(** The tag of the first of the five pattern rules that matches the
    request URL, if one does. *)
Definition patternRule (url : jsstring) : option Tag :=
  if test videoPattern url then Some Video
  else if existsb (fun pattern => test pattern url) gaPatterns then Some GA
  else if existsb (fun pattern => test pattern url) youtubePatterns
  then Some YT
  else if existsb (fun pattern => test pattern url) recaptchaPatterns
  then Some Ignore
  else if test exceptPattern url then Some Exception
  else None.

(** The last condition of [LinkType]: the request URL is one of
    [exceptUrls] or the page is one of [exceptPages]. *)
Definition ignoreListed (main financial_results url page : jsstring)
  : bool :=
  existsb (fun except => jseqb except url) (exceptUrls main)
  || existsb (fun exceptPage => jseqb exceptPage page)
       (exceptPages main financial_results).

(** [LinkType] with the recaptcha table cut down to its first entry. *)
Definition LinkType_recaptcha1 (main financial_results url page : jsstring)
  : Tag :=
  if test videoPattern url then Video
  else if existsb (fun pattern => test pattern url) gaPatterns then GA
  else if existsb (fun pattern => test pattern url) youtubePatterns then YT
  else if existsb (fun pattern => test pattern url)
            (firstn 1 recaptchaPatterns)
  then Ignore
  else if test exceptPattern url then Exception
  else if existsb (fun except => jseqb except url) (exceptUrls main)
          || existsb (fun exceptPage => jseqb exceptPage page)
               (exceptPages main financial_results)
  then Ignore
  else NONE.

(** The precedence table as the specification words it: an ordered list
    of rules, each a test on the request URL and the page URL with the
    tag it gives, read top to bottom until one applies. *)
Definition rules (main financial_results : jsstring)
  : list ((jsstring -> jsstring -> bool) * Tag) :=
  [ (fun url _ => test videoPattern url, Video);
    (fun url _ => existsb (fun pattern => test pattern url) gaPatterns, GA);
    (fun url _ => existsb (fun pattern => test pattern url) youtubePatterns,
     YT);
    (fun url _ => existsb (fun pattern => test pattern url) recaptchaPatterns,
     Ignore);
    (fun url _ => test exceptPattern url, Exception);
    (fun url page => ignoreListed main financial_results url page, Ignore) ].

Fixpoint firstMatch (rs : list ((jsstring -> jsstring -> bool) * Tag))
    (url page : jsstring) : option (nat * Tag) :=
  match rs with
  | [] => None
  | (applies, tag) :: rs' =>
      if applies url page then Some (0, tag)
      else match firstMatch rs' url page with
           | Some (k, tag') => Some (S k, tag')
           | None => None
           end
  end.

(** The canonical beacon URL of the specification, its query parameters,
    and the URLs built from a list of parameters. *)
Definition canonicalBeacon : jsstring :=
  str "https://stats.g.doubleclick.net/g/collect?v=1&tid=G-ABC123&cid=1.2&gtm=xyz&aip=1&dma=1&gcd=1&npa=1&frm=1&tag_exp=1".

Definition beaconBase : jsstring :=
  str "https://stats.g.doubleclick.net/g/collect".

Definition beaconParams : list jsstring :=
  map str ["v=1"; "tid=G-ABC123"; "cid=1.2"; "gtm=xyz"; "aip=1"; "dma=1";
           "gcd=1"; "npa=1"; "frm=1"; "tag_exp=1"]%string.

(** The code units of [&] and [?]. *)
Definition amp : cu := 38%N.
Definition qmark : cu := 63%N.

(** [Array.prototype.join("&")]. *)
Fixpoint join (l : list jsstring) : jsstring :=
  match l with
  | [] => []
  | p :: l' => p ++ match l' with [] => [] | _ :: _ => amp :: join l' end
  end.

Definition queryTail (l : list jsstring) : jsstring :=
  match l with [] => [] | _ :: _ => amp :: join l end.

(** The beacon URL that carries the parameters [l], in that order. *)
Definition beacon (l : list jsstring) : jsstring :=
  beaconBase ++ match l with [] => [] | _ :: _ => qmark :: join l end.

(** [c] does not occur in [s]. *)
Definition lacks (c : cu) (s : jsstring) : bool :=
  forallb (fun d => negb (N.eqb d c)) s.

(** No literal and no class of [r] reads a [c]. *)
Fixpoint avoids (c : cu) (r : regex) : bool :=
  match r with
  | Chr k => negb (cls_test false k c)
  | Lit w => lacks c w
  | Seq r1 r2 | Alt r1 r2 => avoids c r1 && avoids c r2
  | Star r1 => avoids c r1
  | Eps | Bol | Eol => true
  end.

(** [String.prototype.startsWith]. *)
Definition startsWith (w s : jsstring) : bool :=
  match lit_run false w s with Some _ => true | None => false end.

(** A URL holds no line terminator. *)
Definition lineless (s : jsstring) : bool :=
  forallb (fun c => negb (lineTerminator c)) s.

(** The extensions the media-file pattern lists. *)
Definition videoExtensions : list jsstring :=
  map str ["mp4"; "webm"; "ogg"; "mp3"; "wav"; "m4a"; "flac"; "aac"]%string.

(** A URL of scheme http or https whose path ends in [.ext], with what
    stands between the scheme and the extension in [body], and with or
    without a query string. *)
Definition mediaUrl (secure : bool) (body ext : jsstring)
    (query : option jsstring) : jsstring :=
  str "http" ++ (if secure then str "s" else []) ++ str "://" ++ body
    ++ str "." ++ ext
    ++ match query with Some q => str "?" ++ q | None => [] end.

(** A configuration and a few URLs to run the classifier on. *)
Definition exampleMain : jsstring := str "https://example.com/".
Definition exampleFinancialResults : jsstring := str "financial-results".
Definition exampleFinancialPage : jsstring :=
  exampleMain ++ exampleFinancialResults.
Definition exampleApiCall : jsstring := str "https://example.com/api/data".
Definition exampleMediaFile : jsstring :=
  str "https://example.com/media/report.mp4".
Definition exampleWatchMedia : jsstring :=
  str "https://www.youtube.com/watch?v=abc.mp4".
Definition exampleAnalytics : jsstring :=
  str "https://www.google-analytics.com/collect".
Definition exampleWatch : jsstring :=
  str "https://www.youtube.com/watch?v=abc".
Definition exampleRecaptcha : jsstring :=
  str "https://www.google.com/recaptcha/api.js".

(** ** Locator composition of [pageClass.ts] *)

Module PageClass.

Local Open Scope string_scope.

(** The element queries of the automation framework the helpers call, on
    the page or on a locator. *)
Record RoleName := { name : string; exact : option bool }.

Inductive Query :=
| getByTestId (testId : string)
| locator (selector : string)
| getByRole (role : string) (options : option RoleName)
| getByText (text : string).

(** A locator is the chain of calls that built it; nothing is looked up
    until an action runs on it. *)
Inductive Locator :=
| OnPage (q : Query)
| Within (l : Locator) (q : Query)
| FilterHasText (l : Locator) (hasText : string)
| Nth (l : Locator) (index : Z)
| Last (l : Locator).

Inductive NthOption := Index (n : Z) | LastOne.

(** The options object the helpers destructure; an absent property is
    [None]. *)
Record Options := {
  testId : option string;
  id : option string;
  classes : option string;
  text : option string;
  role : option string;
  roleName : option RoleName;
  tag : option string;
  nth : option NthOption
}.


(** [if (field)]: a string property counts when present and not empty. *)
Definition truthy (field : option string) : option string :=
  match field with
  | Some s => if String.eqb s "" then None else Some s
  | None => None
  end.

Inductive Base := testIdBase | idBase | classesBase | tagBase | roleBase
                | textBase.

Definition isBase (b1 b2 : Base) : bool :=
  match b1, b2 with
  | testIdBase, testIdBase | idBase, idBase | classesBase, classesBase
  | tagBase, tagBase | roleBase, roleBase | textBase, textBase => true
  | _, _ => false
  end.

Inductive result (A : Type) :=
| Ok (a : A)
| Throw (message : string).
Arguments Ok {A} a.
Arguments Throw {A} message.

Definition bind {A B} (r : result A) (k : A -> result B) : result B :=
  match r with
  | Ok a => k a
  | Throw message => Throw message
  end.

Notation "'let*' p ':=' r 'in' k" := (bind r (fun p => k))
  (at level 10, p pattern, r at level 200, k at level 200).

Definition missingWithText : string :=
  "Must provide at least one of testId, tag, role, or text.".
Definition missingWithoutText : string :=
  "Must provide at least one of testId, id, classes, tag, or role.".

(** The chain of [if ... else if ...] that establishes the base, in the
    two shapes it has: with the final [text] branch, and without it. *)
Definition baseUpToRole (o : Options) : option (Locator * Base) :=
  match truthy (testId o) with
  | Some testId => Some (OnPage (getByTestId testId), testIdBase)
  | None =>
  match truthy (id o) with
  | Some id => Some (OnPage (locator ("#" ++ id)), idBase)
  | None =>
  match truthy (classes o) with
  | Some classes => Some (OnPage (locator ("." ++ classes)), classesBase)
  | None =>
  match truthy (tag o) with
  | Some tag => Some (OnPage (locator tag), tagBase)
  | None =>
  match truthy (role o) with
  | Some role => Some (OnPage (getByRole role (roleName o)), roleBase)
  | None => None
  end end end end end.

Definition baseWithText (message : string) (o : Options)
  : result (Locator * Base) :=
  match baseUpToRole o with
  | Some found => Ok found
  | None =>
      match truthy (text o) with
      | Some text => Ok (OnPage (getByText text), textBase)
      | None => Throw message
      end
  end.

Definition baseWithoutText (message : string) (o : Options)
  : result (Locator * Base) :=
  match baseUpToRole o with
  | Some found => Ok found
  | None => Throw message
  end.

(** The refinement blocks, each [if (field && baseUsed !== "field")]. *)
Definition addId (o : Options) (baseUsed : Base) (l : Locator) : Locator :=
  match truthy (id o) with
  | Some id =>
      if isBase baseUsed idBase then l else Within l (locator ("#" ++ id))
  | None => l
  end.

Definition addClasses (o : Options) (baseUsed : Base) (l : Locator)
  : Locator :=
  match truthy (classes o) with
  | Some classes =>
      if isBase baseUsed classesBase then l
      else Within l (locator ("." ++ classes))
  | None => l
  end.

Definition addRole (o : Options) (baseUsed : Base) (l : Locator) : Locator :=
  match truthy (role o) with
  | Some role =>
      if isBase baseUsed roleBase then l
      else Within l (getByRole role (roleName o))
  | None => l
  end.

Definition addTag (o : Options) (baseUsed : Base) (l : Locator) : Locator :=
  match truthy (tag o) with
  | Some tag => if isBase baseUsed tagBase then l else Within l (locator tag)
  | None => l
  end.

Definition addText (o : Options) (baseUsed : Base) (l : Locator) : Locator :=
  match truthy (text o) with
  | Some text =>
      if isBase baseUsed textBase then l else FilterHasText l text
  | None => l
  end.

Definition addNth (o : Options) (l : Locator) : Locator :=
  match nth o with
  | Some (Index n) => Nth l n
  | Some LastOne => Last l
  | None => l
  end.

(** The methods that resolve a locator from their options.  Each is the
    locator its action or assertion then runs on, or the error it
    throws. *)

(** [deleteElement]: the locator the element is removed through. *)
Definition deleteElement (o : Options) : result Locator :=
  let* (l, baseUsed) := baseWithText missingWithText o in
  let l := addId o baseUsed l in
  let l := addClasses o baseUsed l in
  let l := addRole o baseUsed l in
  let l := addTag o baseUsed l in
  let l := addText o baseUsed l in
  Ok (addNth o l).

(** [verifyDesing], focus ["element"]: the locator the screenshot is
    taken of; its options have no [text]. *)
Definition verifyDesing_element (o : Options) : result Locator :=
  let* (l, baseUsed) := baseWithoutText missingWithoutText o in
  let l := addId o baseUsed l in
  let l := addClasses o baseUsed l in
  let l := addRole o baseUsed l in
  let l := addTag o baseUsed l in
  Ok (addNth o l).

(** [verifyText]: the locator whose text is compared with [text], which
    is the expected text and no criterion. *)
Definition verifyText (o : Options) : result Locator :=
  let* (l, baseUsed) := baseWithoutText missingWithoutText o in
  let l := addId o baseUsed l in
  let l := addClasses o baseUsed l in
  let l := addRole o baseUsed l in
  let l := addTag o baseUsed l in
  Ok (addNth o l).

(** [verifyAttribute]: the locator whose attribute is checked. *)
Definition verifyAttribute (o : Options) : result Locator :=
  let* (l, baseUsed) := baseWithText missingWithText o in
  let l := addId o baseUsed l in
  let l := addClasses o baseUsed l in
  let l := addRole o baseUsed l in
  let l := addTag o baseUsed l in
  let l := addText o baseUsed l in
  Ok (addNth o l).

(** [verifyCss]: the locator whose style is checked. *)
Definition verifyCss (o : Options) : result Locator :=
  let* (l, baseUsed) := baseWithText missingWithText o in
  let l := addId o baseUsed l in
  let l := addClasses o baseUsed l in
  let l := addRole o baseUsed l in
  let l := addTag o baseUsed l in
  let l := addText o baseUsed l in
  Ok (addNth o l).

(** [TestVisible]: the locator whose visibility is asserted. *)
Definition TestVisible (o : Options) : result Locator :=
  let* (l, baseUsed) := baseWithText missingWithText o in
  let l := addId o baseUsed l in
  let l := addRole o baseUsed l in
  let l := addTag o baseUsed l in
  let l := addText o baseUsed l in
  Ok (addNth o l).

(** [TestExist]: the locator whose presence is asserted. *)
Definition TestExist (o : Options) : result Locator :=
  let* (l, baseUsed) := baseWithText missingWithText o in
  let l := addId o baseUsed l in
  let l := addRole o baseUsed l in
  let l := addTag o baseUsed l in
  let l := addText o baseUsed l in
  Ok (addNth o l).

(** [writeInput]: the locator that is filled. *)
Definition writeInput (o : Options) : result Locator :=
  let* (l, baseUsed) := baseWithText missingWithText o in
  let l := addId o baseUsed l in
  let l := addClasses o baseUsed l in
  let l := addRole o baseUsed l in
  let l := addTag o baseUsed l in
  let l := addText o baseUsed l in
  Ok (addNth o l).

(** [clearInput]: the locator that is cleared. *)
Definition clearInput (o : Options) : result Locator :=
  let* (l, baseUsed) := baseWithText missingWithText o in
  let l := addId o baseUsed l in
  let l := addClasses o baseUsed l in
  let l := addRole o baseUsed l in
  let l := addTag o baseUsed l in
  let l := addText o baseUsed l in
  Ok (addNth o l).

(** [verifyHypervincle]: the locator whose [href] and [target] are
    checked; its options have no [text]. *)
Definition verifyHypervincle (o : Options) : result Locator :=
  let* (l, baseUsed) := baseWithoutText missingWithText o in
  let l := addId o baseUsed l in
  let l := addClasses o baseUsed l in
  let l := addRole o baseUsed l in
  let l := addTag o baseUsed l in
  Ok (addNth o l).

(** [clickElement]: the locator that is clicked. *)
Definition clickElement (o : Options) : result Locator :=
  let* (l, baseUsed) := baseWithText missingWithText o in
  let l := addId o baseUsed l in
  let l := addClasses o baseUsed l in
  let l := addRole o baseUsed l in
  let l := addTag o baseUsed l in
  let l := addText o baseUsed l in
  Ok (addNth o l).

(** [hoverElement]: the locator that is hovered. *)
Definition hoverElement (o : Options) : result Locator :=
  let* (l, baseUsed) := baseWithText missingWithText o in
  let l := addId o baseUsed l in
  let l := addClasses o baseUsed l in
  let l := addRole o baseUsed l in
  let l := addTag o baseUsed l in
  let l := addText o baseUsed l in
  Ok (addNth o l).

(** [waitfor]: the locator that is waited for. *)
Definition waitfor (o : Options) : result Locator :=
  let* (l, baseUsed) := baseWithText missingWithText o in
  let l := addId o baseUsed l in
  let l := addClasses o baseUsed l in
  let l := addRole o baseUsed l in
  let l := addTag o baseUsed l in
  let l := addText o baseUsed l in
  Ok (addNth o l).

(** The methods above, which are those that select a base (they hold a
    [baseUsed] variable).  [testImage], [testVideo] and [TestTable] query
    by a test id they are handed and select nothing. *)
Inductive Method :=
| DeleteElement | VerifyDesing | VerifyText | VerifyAttribute | VerifyCss
| TestVisible_ | TestExist_ | WriteInput | ClearInput | VerifyHypervincle
| ClickElement | HoverElement | Waitfor.

Definition resolve (m : Method) : Options -> result Locator :=
  match m with
  | DeleteElement => deleteElement
  | VerifyDesing => verifyDesing_element
  | VerifyText => verifyText
  | VerifyAttribute => verifyAttribute
  | VerifyCss => verifyCss
  | TestVisible_ => TestVisible
  | TestExist_ => TestExist
  | WriteInput => writeInput
  | ClearInput => clearInput
  | VerifyHypervincle => verifyHypervincle
  | ClickElement => clickElement
  | HoverElement => hoverElement
  | Waitfor => waitfor
  end.

(** Whether [text] is a criterion of the method: it is offered as a base
    after [role]. *)
Definition textIsBase (m : Method) : bool :=
  match m with
  | VerifyDesing | VerifyText | VerifyHypervincle => false
  | _ => true
  end.

(** What a locator was built from: the query on the page at its root and
    the refinements applied to it, first applied first. *)
Fixpoint root (l : Locator) : Query :=
  match l with
  | OnPage q => q
  | Within l' _ | FilterHasText l' _ | Nth l' _ | Last l' => root l'
  end.

Inductive Refinement :=
| descendant (q : Query)
| hasText (text : string)
| nthMatch (index : Z)
| lastMatch.

Fixpoint refinements (l : Locator) : list Refinement :=
  match l with
  | OnPage _ => []
  | Within l' q => (refinements l' ++ [descendant q])%list
  | FilterHasText l' t => (refinements l' ++ [hasText t])%list
  | Nth l' n => (refinements l' ++ [nthMatch n])%list
  | Last l' => (refinements l' ++ [lastMatch])%list
  end.

Definition extends (l0 l : Locator) : Prop :=
  root l = root l0
  /\ exists more, refinements l = (refinements l0 ++ more)%list.

(** Options to run the methods on. *)
Definition testIdAndClasses : Options :=
  {| testId := Some "x"; id := None; classes := Some "c"; text := None;
     role := None; roleName := None; tag := None; nth := None |}.

Definition testIdAndId : Options :=
  {| testId := Some "x"; id := Some "y"; classes := None; text := None;
     role := None; roleName := None; tag := None; nth := None |}.

Definition onlyText : Options :=
  {| testId := None; id := None; classes := None; text := Some "Submit";
     role := None; roleName := None; tag := None; nth := None |}.

End PageClass.

(** ** The response handler of [verifyResponses]

    What the handler does with one response: nothing, or an expectation
    that a condition over the status code is truthy, which throws when
    the condition is false. *)
Inductive Check :=
| NoCheck
| Expect (condition : bool).

(** The [switch] over the tag; ["NONE"] is no [case] of it and takes the
    [default] branch. *)
Definition responseCheck (tag : Tag) (status : Z) : Check :=
  match tag with
  | Video =>
      Expect ((status =? 200) || (status =? 204) || (status =? 206)
              || (status =? 304))%Z
  | GA =>
      Expect ((status =? 200) || (status =? 204) || (status =? 302)
              || (status =? 304))%Z
  | YT => Expect ((status =? 200) || (status =? 204))%Z
  | Exception => NoCheck
  | Ignore => NoCheck
  | NONE =>
      Expect ((status =? 200) || (status =? 204) || (status =? 206)
              || ((status >=? 300) && (status <? 400)))%Z
  end.

Definition onResponse (main financial_results url page : jsstring)
    (status : Z) : Check :=
  responseCheck (LinkType main financial_results url page) status.

(** The path heads the first YouTube pattern lists after the host. *)
Definition youtubeHeads : list jsstring :=
  map str ["watch?v="; "embed/"; "api/stats/playback?"; "api/stats/atr?";
           "api/stats/qoe?"; "api/stats/ptracking?"; "api/stats/watchtime?";
           "ptracking?"; "v/"; "c/"; "user/"; "channel/"; "playlist?list=";
           "shorts/"; "results?search_query="]%string.

(** The hosts the first analytics pattern lists, and equality of two
    strings up to the case of their letters, which is how a pattern with
    the [i] flag compares. *)
Definition analyticsHosts : list jsstring :=
  [str "analytics.google.com"; str "www.google-analytics.com"].

Definition sameIgnoringCase (w v : jsstring) : Prop :=
  map (canonicalize true) v = map (canonicalize true) w.

(** ** Further vocabulary and methods of [pageClass.ts] *)

Module PageChecks.

Import PageClass.
Local Open Scope string_scope.

(** Options with one property replaced. *)
Definition withNth (o : Options) (n : option NthOption) : Options :=
  {| testId := testId o; id := id o; classes := classes o; text := text o;
     role := role o; roleName := roleName o; tag := tag o; nth := n |}.

Definition withText (o : Options) (t : option string) : Options :=
  {| testId := testId o; id := id o; classes := classes o; text := t;
     role := role o; roleName := roleName o; tag := tag o; nth := nth o |}.

Definition withRoleName (o : Options) (r : option RoleName) : Options :=
  {| testId := testId o; id := id o; classes := classes o; text := text o;
     role := role o; roleName := r; tag := tag o; nth := nth o |}.

(** Options with every property that holds the empty string left out. *)
Definition unlessEmpty (field : option string) : option string :=
  match field with
  | Some EmptyString => None
  | _ => field
  end.

Definition dropEmpty (o : Options) : Options :=
  {| testId := unlessEmpty (testId o); id := unlessEmpty (id o);
     classes := unlessEmpty (classes o); text := unlessEmpty (text o);
     role := unlessEmpty (role o); roleName := roleName o;
     tag := unlessEmpty (tag o); nth := nth o |}.

(** The queries a method may start from, in the order it looks at
    them. *)
Definition baseCandidates (m : Method) (o : Options) : list (option Query) :=
  [ option_map getByTestId (truthy (testId o));
    option_map (fun id => locator ("#" ++ id)) (truthy (id o));
    option_map (fun classes => locator ("." ++ classes)) (truthy (classes o));
    option_map locator (truthy (tag o));
    option_map (fun role => getByRole role (roleName o)) (truthy (role o));
    if textIsBase m then option_map getByText (truthy (text o)) else None ].

Fixpoint firstSome {A} (l : list (option A)) : option A :=
  match l with
  | [] => None
  | Some a :: _ => Some a
  | None :: l' => firstSome l'
  end.

(** The eight methods with every refinement block. *)
Definition isFull (m : Method) : bool :=
  match m with
  | DeleteElement | VerifyAttribute | VerifyCss | WriteInput | ClearInput
  | ClickElement | HoverElement | Waitfor => true
  | _ => false
  end.

(** The value of a criterion, when it is set. *)
Definition valueOf (c : Base) (o : Options) : option string :=
  match c with
  | testIdBase => truthy (testId o)
  | idBase => truthy (id o)
  | classesBase => truthy (classes o)
  | tagBase => truthy (tag o)
  | roleBase => truthy (role o)
  | textBase => truthy (text o)
  end.

Definition isSet (c : Base) (o : Options) : bool :=
  match valueOf c o with Some _ => true | None => false end.

(** The first criterion that is set, in the order a base is looked
    for. *)
Definition firstSetCriterion (o : Options) : option Base :=
  find (fun c => isSet c o)
    [testIdBase; idBase; classesBase; tagBase; roleBase; textBase].

(** The refinement a criterion stands for when it is set and is not the
    base; a test id is a base only. *)
Definition refinementBy (c : Base) (o : Options) : list Refinement :=
  match c, valueOf c o with
  | idBase, Some v => [descendant (locator ("#" ++ v))]
  | classesBase, Some v => [descendant (locator ("." ++ v))]
  | roleBase, Some v => [descendant (getByRole v (roleName o))]
  | tagBase, Some v => [descendant (locator v)]
  | textBase, Some v => [hasText v]
  | _, _ => []
  end.

Definition indexRefinement (o : Options) : list Refinement :=
  match nth o with
  | Some (Index n) => [nthMatch n]
  | Some LastOne => [lastMatch]
  | None => []
  end.

(** The criteria other than the base, in the order the refinement blocks
    stand in the methods. *)
Definition otherCriteria (base : Base) : list Base :=
  filter (fun c => negb (isBase base c))
    [idBase; classesBase; roleBase; tagBase; textBase].

Definition expectedRefinements (base : Base) (o : Options)
  : list Refinement :=
  (flat_map (fun c => refinementBy c o) (otherCriteria base)
   ++ indexRefinement o)%list.

(** [testImage]: the locator whose [src] is compared with [url], or
    [None] when the method returns without an assertion.  It has no
    [else] branch and throws nothing. *)
Definition testImage (o : Options) : option Locator :=
  match truthy (testId o) with
  | Some testId =>
      let l := OnPage (getByTestId testId) in
      let l := match truthy (role o) with
               | Some role => Within l (getByRole role None)
               | None => l
               end in
      let l := match nth o with Some (Index n) => Nth l n | _ => l end in
      let l := match nth o with Some LastOne => Last l | _ => l end in
      Some l
  | None => None
  end.

(** [TestTable]: the [toHaveText] expectations it awaits, in order; the
    first one that fails ends the method with its error. *)
Definition indexed {A} (l : list A) : list (nat * A) :=
  combine (seq 0 (List.length l)) l.

Definition headExpectations (headValues : list string) (testId : string)
  : list (Locator * string) :=
  map (fun '(index, value) =>
         (Nth (Within (OnPage (getByTestId testId)) (locator "thead tr th"))
            (Z.of_nat index),
          value))
      (indexed headValues).

Definition rowExpectations (i : nat) (row : list string)
  : list (Locator * string) :=
  map (fun '(j, value) =>
         (Nth (Within (Nth (OnPage (locator "tbody tr")) (Z.of_nat i))
                 (locator "td"))
            (Z.of_nat j),
          value))
      (indexed row).

Definition TestTable (headValues : list string) (rows : list (list string))
    (testId : string) : list (Locator * string) :=
  (headExpectations headValues testId
   ++ List.concat (map (fun '(i, row) => rowExpectations i row) (indexed rows)))
  %list.

(** Options to run the methods on: an empty test id beside an id, and
    every criterion at once. *)
Definition emptyTestIdAndId : Options :=
  {| testId := Some ""; id := Some "y"; classes := None; text := None;
     role := None; roleName := None; tag := None; nth := None |}.

Definition everyCriterion : Options :=
  {| testId := None; id := Some "buy"; classes := Some "primary";
     text := Some "Buy"; role := Some "button";
     roleName := Some {| name := "Buy now"; exact := Some true |};
     tag := Some "span"; nth := Some (Index 0) |}.

(** [heroImage] with an id, classes, a tag, a text and a role name
    added. *)
Definition heroImageAndMore : Options :=
  {| testId := Some "hero"; id := Some "y"; classes := Some "c";
     text := Some "t"; role := Some "img";
     roleName := Some {| name := "n"; exact := None |};
     tag := Some "div"; nth := Some LastOne |}.

(** Options to run [testImage] on. *)
Definition heroImage : Options :=
  {| testId := Some "hero"; id := None; classes := None; text := None;
     role := Some "img"; roleName := None; tag := None;
     nth := Some LastOne |}.

End PageChecks.

(** ** [verifyStatusAndSecurityHeaders]

    The navigation ends in one of three ways, and the body of the [try]
    runs its expectations in order, the first failed one throwing. *)
Module SecurityHeaders.

Local Open Scope string_scope.

(** What a rejected [goto] was rejected with: [null] or [undefined], of
    which no property can be read, or any other value, with what its
    [message] property reads as. *)
Inductive Reason :=
| nullish
| value (message : string).

Inductive Goto :=
| Rejected (reason : Reason)
| NoResponse
| Response (status : Z) (headers : list (string * string)).

(** What was thrown inside the [try]: the rejection of [goto], or the
    error of a failed expectation, which is an [Error] object. *)
Inductive Thrown :=
| rejection (reason : Reason)
| responseNotTruthy
| statusNot200 (status : Z)
| missingHeader (name : string)
| monitoringIdNot (found : option string).

Inductive Completion :=
| Returns
| Throws (what : Thrown).

(** How the method itself ends: it returns, or its [catch] block throws
    the [TypeError] of reading [error.message]. *)
Inductive Outcome :=
| Completes
| ThrowsTypeError.

(** [header[name]] on the object [response.headers()] returns. *)
Fixpoint header (headers : list (string * string)) (name : string)
  : option string :=
  match headers with
  | [] => None
  | (n, v) :: rest => if String.eqb n name then Some v else header rest name
  end.

Definition securityHeaders : list string :=
  ["x-xss-protection"; "strict-transport-security"; "x-frame-options";
   "x-content-type-options"; "content-security-policy"; "referrer-policy"].

Fixpoint firstMissing (headers : list (string * string))
    (names : list string) : option string :=
  match names with
  | [] => None
  | n :: rest =>
      match header headers n with
      | Some _ => firstMissing headers rest
      | None => Some n
      end
  end.

Definition sameValue (found : option string) (expected : string) : bool :=
  match found with
  | Some v => String.eqb v expected
  | None => false
  end.

Definition tryBlock (g : Goto) (monitoringId : string) : Completion :=
  match g with
  | Rejected reason => Throws (rejection reason)
  | NoResponse => Throws responseNotTruthy
  | Response status headers =>
      if negb (status =? 200)%Z then Throws (statusNot200 status)
      else
        match firstMissing headers securityHeaders with
        | Some n => Throws (missingHeader n)
        | None =>
            if sameValue (header headers "monitoring-id") monitoringId
            then Returns
            else Throws (monitoringIdNot (header headers "monitoring-id"))
        end
  end.

(** The method: how it ends and what its [catch] wrote with
    [console.error]; the line is written from [error.message], and
    reading that of [null] or [undefined] throws before anything is
    written. *)
Definition verifyStatusAndSecurityHeaders (g : Goto) (monitoringId : string)
  : Outcome * list Thrown :=
  match tryBlock g monitoringId with
  | Returns => (Completes, [])
  | Throws (rejection nullish) => (ThrowsTypeError, [])
  | Throws what => (Completes, [what])
  end.

End SecurityHeaders.

(** ** [getWorkingMailSlurp]

    The keys it tries and the loop over them.  The client and its
    [createInbox] belong to the mail service: [createInbox attempt key]
    is the inbox the call of the given attempt returns, or [None] when
    it throws; building the client, which is done outside the [try], is
    taken not to throw. *)
Module MailSlurpKeys.

(** [String.prototype.split] with a separator of one code unit. *)
Fixpoint split (separator : cu) (s : jsstring) : list jsstring :=
  match s with
  | [] => [[]]
  | c :: s' =>
      if N.eqb c separator then [] :: split separator s'
      else match split separator s' with
           | piece :: pieces => (c :: piece) :: pieces
           | [] => [[c]]
           end
  end.

(** White space and line terminators, which [String.prototype.trim]
    strips from both ends. *)
Definition whiteSpace (c : cu) : bool :=
  (N.leb 9 c && N.leb c 13) || N.eqb c 32 || N.eqb c 160 || N.eqb c 5760
  || (N.leb 8192 c && N.leb c 8202) || N.eqb c 8232 || N.eqb c 8233
  || N.eqb c 8239 || N.eqb c 8287 || N.eqb c 12288 || N.eqb c 65279.

Fixpoint trimStart (s : jsstring) : jsstring :=
  match s with
  | c :: s' => if whiteSpace c then trimStart s' else s
  | [] => []
  end.

Definition trimEnd (s : jsstring) : jsstring := rev (trimStart (rev s)).

Definition trim (s : jsstring) : jsstring := trimEnd (trimStart s).

Definition comma : cu := 44%N.

(** [(process.env.MAILSLURP_API_KEYS || "").split(",").map(trim)
    .filter(Boolean)]; the variable is [None] when it is not set. *)
Definition envKeys (env : option jsstring) : list jsstring :=
  filter (fun k => negb (isnil k))
    (map trim (split comma (match env with Some e => e | None => [] end))).

Definition apiKeys : list jsstring :=
  [ str "245ff1a2a6a9acd297536ae0a460066a4cc50c976e91e87106ed5e4c622f4986";
    str "5456176b80b0104e07852c94105f9bcb07c7dd4d6e487af2f168ed525ca03c5f";
    str "f0c0fcff92414a656495248e13feeca006e9b0396c24c4a1d344b20ad670567c" ].

Definition keysToTry (env : option jsstring) : list jsstring :=
  if Nat.ltb 0 (List.length (envKeys env)) then envKeys env else apiKeys.

(** The line [console.warn] writes for a key that failed. *)
Definition warning (key : jsstring) : jsstring :=
  str "MailSlurp API key failed: " ++ firstn 8 key ++ str "...".

(** [String.prototype.join] with a comma. *)
Fixpoint joinComma (l : list jsstring) : jsstring :=
  match l with
  | [] => []
  | k :: l' => k ++ match l' with [] => [] | _ :: _ => comma :: joinComma l' end
  end.

(** A key as one writes it in the variable: not empty, without a comma,
    and without white space at its ends. *)
Definition cleanKey (k : jsstring) : bool :=
  negb (isnil k) && lacks comma k
  && negb (whiteSpace (hd 0%N k)) && negb (whiteSpace (last k 0%N)).

Section Loop.

Variable Inbox : Type.
Variable createInbox : nat -> jsstring -> option Inbox.

(** The [for] loop from the attempt [attempt] on: the warnings written
    and the key and inbox returned, or [None] when the loop ends and the
    function throws its error. *)
Fixpoint tryKeys (attempt : nat) (keys : list jsstring)
  : list jsstring * option (jsstring * Inbox) :=
  match keys with
  | [] => ([], None)
  | key :: rest =>
      match createInbox attempt key with
      | Some inbox => ([], Some (key, inbox))
      | None =>
          let (warnings, found) := tryKeys (S attempt) rest in
          (warning key :: warnings, found)
      end
  end.

Definition getWorkingMailSlurp (env : option jsstring)
  : list jsstring * option (jsstring * Inbox) :=
  tryKeys 0 (keysToTry env).

End Loop.

End MailSlurpKeys.


(** * Properties *)

Lemma jseqb_eq (a b : jsstring) : jseqb a b = true <-> a = b.
Proof.
revert b; induction a as [|x a IH]; intros [|y b]; simpl; split;
  try congruence; try easy.
- intros H. apply andb_true_iff in H as [H1 H2].
  apply N.eqb_eq in H1. apply IH in H2. congruence.
- intros H. injection H as -> ->. rewrite N.eqb_refl. simpl.
  now apply IH.
Qed.

Lemma jseqb_refl (a : jsstring) : jseqb a a = true.
Proof. now apply jseqb_eq. Qed.

Section MatcherFacts.

Lemma lit_run_spec w s s' : lit_run false w s = Some s' <-> s = w ++ s'.
Proof.
  revert s; induction w as [|a w IH]; intros s; simpl.
  - split; congruence.
  - destruct s as [|c s]; [split; discriminate|].
    unfold canonicalize; simpl.
    destruct (N.eqb_spec a c) as [->|Hne].
    + rewrite IH. split; congruence.
    + split; [discriminate | congruence].
Qed.

Lemma steps_length r b s s' :
  steps r b s s' -> List.length s' <= List.length s.
Proof.
  induction 1; simpl; try lia.
  rewrite length_app; lia.
Qed.

Lemma iter_sound r f :
  (forall b s s', In s' (f b s) -> steps r b s s') ->
  forall fuel b s s', In s' (iter f fuel b s) -> steps (Star r) b s s'.
Proof.
  intros Hf; induction fuel as [|n IH]; intros b s s' [<-|Hin];
    try apply st_star_nil; try contradiction.
  apply in_flat_map in Hin as (s1 & H1 & H2).
  apply filter_In in H1 as [H1 Hlt]. apply Nat.ltb_lt in Hlt.
  eapply st_star_cons; eauto.
Qed.

Lemma run_sound r :
  forall b s s', In s' (run false r b s) -> steps r b s s'.
Proof.
  induction r as [|k|w| | |r1 IH1 r2 IH2|r1 IH1 r2 IH2|r IH];
    intros b s s'; simpl.
  - intros [<-|[]]; constructor.
  - destruct s as [|c s]; [easy|].
    destruct (cls_test false k c) eqn:E; [|easy].
    intros [<-|[]]; now constructor.
  - destruct (lit_run false w s) eqn:E; [|easy].
    intros [<-|[]]. apply lit_run_spec in E as ->. constructor.
  - destruct b; [|easy]. intros [<-|[]]; constructor.
  - destruct s; [|easy]. intros [<-|[]]; constructor.
  - intros Hin. apply in_flat_map in Hin as (s1 & H1 & H2).
    eapply st_seq; eauto.
  - intros Hin. apply in_app_or in Hin as [H|H];
      [apply st_alt_l | apply st_alt_r]; auto.
  - apply iter_sound; auto.
Qed.

Lemma iter_complete r f :
  (forall b s s', steps r b s s' -> In s' (f b s)) ->
  forall b s s', steps (Star r) b s s' ->
  forall fuel, List.length s <= fuel -> In s' (iter f fuel b s).
Proof.
  intros Hf b s s' H. remember (Star r) as R eqn:ER.
  induction H; try discriminate; injection ER as ->; intros fuel Hfuel.
  - destruct fuel; now left.
  - destruct fuel as [|n]; [lia|]. right.
    apply in_flat_map. exists s1. split.
    + apply filter_In. split; [now apply Hf|]. now apply Nat.ltb_lt.
    + apply IHsteps2; [reflexivity | lia].
Qed.

Lemma run_complete r :
  forall b s s', steps r b s s' -> In s' (run false r b s).
Proof.
  induction r as [|k|w| | |r1 IH1 r2 IH2|r1 IH1 r2 IH2|r IH];
    intros b s s' H.
  - inversion H; subst; now left.
  - inversion H as [|? ? ? ? Hk| | | | | | | |]; subst; simpl.
    rewrite Hk. now left.
  - inversion H; subst; simpl.
    assert (E : lit_run false w (w ++ s') = Some s')
      by now apply lit_run_spec.
    rewrite E. now left.
  - inversion H; subst; now left.
  - inversion H; subst; now left.
  - inversion H; subst; simpl. apply in_flat_map. eauto.
  - inversion H; subst; simpl; apply in_or_app; auto.
  - simpl. eapply iter_complete; eauto.
Qed.

Lemma run_iff r b s s' : In s' (run false r b s) <-> steps r b s s'.
Proof. split; [apply run_sound | apply run_complete]. Qed.

Lemma nonempty_In {A} (l : list A) : nonempty l = true <-> exists x, In x l.
Proof.
  destruct l; simpl; split; try easy.
  - intros [x []].
  - eauto.
Qed.

Lemma search_iff r : forall s b,
  search false r b s = true <->
  exists pre rest s', s = pre ++ rest /\ steps r (b && isnil pre) rest s'.
Proof.
  induction s as [|c s IH]; intros b; simpl; rewrite orb_true_iff.
  - rewrite nonempty_In. split.
    + intros [[x Hx]|H]; [|discriminate].
      exists [], [], x. rewrite andb_true_r. split; [easy|].
      now apply run_sound.
    + intros (pre & rest & s' & E & H).
      destruct pre; [|discriminate]. simpl in E; subst rest.
      rewrite andb_true_r in H. left. exists s'. now apply run_complete.
  - rewrite nonempty_In, IH. split.
    + intros [[x Hx]|(pre & rest & s' & -> & H)].
      * exists [], (c :: s), x. rewrite andb_true_r. split; [easy|].
        now apply run_sound.
      * exists (c :: pre), rest, s'. simpl. rewrite andb_false_r.
        simpl in H. now split.
    + intros (pre & rest & s' & E & H). destruct pre as [|c' pre].
      * simpl in E; subst rest. rewrite andb_true_r in H.
        left. exists s'. now apply run_complete.
      * simpl in E. injection E as -> ->. right.
        exists pre, rest, s'. split; [easy|].
        simpl in *. now rewrite andb_false_r in H.
Qed.

Lemma test_iff r s :
  test (mk r false) s = true <->
  exists pre rest s', s = pre ++ rest /\ steps r (isnil pre) rest s'.
Proof. unfold test; simpl. now rewrite search_iff. Qed.

Lemma steps_flag r b b' s s' :
  bol_free r = true -> steps r b s s' -> steps r b' s s'.
Proof.
  intros Hf H; revert b'. induction H; intros b'; simpl in Hf;
    try apply andb_true_iff in Hf as [Hf1 Hf2];
    try discriminate; try (econstructor; eauto; fail).
Qed.

Lemma steps_extend r b s s' post :
  eol_free r = true -> steps r b s s' ->
  steps r b (s ++ post) (s' ++ post).
Proof.
  intros Hf H. induction H; simpl in Hf;
    try apply andb_true_iff in Hf as [Hf1 Hf2];
    try discriminate; try (econstructor; eauto; fail).
  - rewrite <- app_assoc. constructor.
  - eapply st_seq; [eauto|].
    replace (Nat.eqb (List.length (s1 ++ post)) (List.length (s ++ post)))
      with (Nat.eqb (List.length s1) (List.length s)); [eauto|].
    rewrite !length_app.
    destruct (Nat.eqb_spec (List.length s1) (List.length s)) as [->|Hn].
    + now rewrite Nat.eqb_refl.
    + symmetry. apply Nat.eqb_neq. lia.
  - eapply st_star_cons; eauto. rewrite !length_app. lia.
Qed.

End MatcherFacts.

Section ClassifierFacts.

Variables main financial_results : jsstring.

Lemma seq_bf r1 r2 b b2 s s1 s2 :
  bol_free r2 = true ->
  steps r1 b s s1 -> steps r2 b2 s1 s2 -> steps (Seq r1 r2) b s s2.
Proof.
  intros Hf H1 H2. eapply st_seq; [exact H1|].
  eapply steps_flag; eauto.
Qed.

Lemma star_dot b body rest :
  lineless body = true -> steps (Star (Chr Dot)) b (body ++ rest) rest.
Proof.
  revert b; induction body as [|c body IH]; intros b H; simpl in *.
  - constructor.
  - apply andb_true_iff in H as [Hc H].
    eapply st_star_cons; [constructor; exact Hc | simpl; lia | auto].
Qed.

Lemma video_ext b ext rest :
  In ext videoExtensions ->
  steps (Lit (str "mp4") <|> Lit (str "webm") <|> Lit (str "ogg")
         <|> Lit (str "mp3") <|> Lit (str "wav") <|> Lit (str "m4a")
         <|> Lit (str "flac") <|> Lit (str "aac"))%re
    b (ext ++ rest) rest.
Proof.
  unfold videoExtensions; simpl.
  intros [<-|[<-|[<-|[<-|[<-|[<-|[<-|[<-|[]]]]]]]]];
    repeat first [apply st_lit | apply st_alt_l; apply st_lit
                 | apply st_alt_r].
Qed.

Lemma video_after_scheme b body ext query :
  In ext videoExtensions -> lineless body = true ->
  match query with Some q => lineless q = true | None => True end ->
  steps (Lit (str "://") ;; Star (Chr Dot) ;; Lit (str ".") ;;
         (Lit (str "mp4") <|> Lit (str "webm") <|> Lit (str "ogg")
          <|> Lit (str "mp3") <|> Lit (str "wav") <|> Lit (str "m4a")
          <|> Lit (str "flac") <|> Lit (str "aac")) ;;
         Opt (Lit (str "?") ;; Star (Chr Dot)) ;; Eol)%re
    b
    (str "://" ++ body ++ str "." ++ ext
       ++ match query with Some q => str "?" ++ q | None => [] end)
    [].
Proof.
  intros Hext Hbody Hq.
  eapply seq_bf with (b2 := false); [reflexivity | apply st_lit |].
  eapply seq_bf with (b2 := false);
    [reflexivity | apply star_dot, Hbody |].
  eapply seq_bf with (b2 := false); [reflexivity | apply st_lit |].
  eapply seq_bf with (b2 := false);
    [reflexivity | apply video_ext, Hext |].
  destruct query as [q|].
  - eapply seq_bf with (b2 := false) (s1 := []);
      [reflexivity | | apply st_eol].
    apply st_alt_l. eapply seq_bf with (b2 := false);
      [reflexivity | apply st_lit |].
    rewrite <- (app_nil_r q) at 1. now apply star_dot.
  - eapply seq_bf with (b2 := false) (s1 := []);
      [reflexivity | apply st_alt_r, st_eps | apply st_eol].
Qed.

Lemma video_media secure body ext query :
  In ext videoExtensions -> lineless body = true ->
  match query with Some q => lineless q = true | None => True end ->
  test videoPattern (mediaUrl secure body ext query) = true.
Proof.
  intros Hext Hbody Hq. apply test_iff.
  exists [], (mediaUrl secure body ext query), []. split; [reflexivity|].
  unfold mediaUrl. cbn [isnil].
  eapply seq_bf with (b2 := false); [reflexivity | apply st_lit |].
  destruct secure; cbn [app].
  - eapply seq_bf with (b2 := false);
      [reflexivity | apply st_alt_l, st_lit |].
    now apply video_after_scheme.
  - eapply seq_bf with (b2 := false);
      [reflexivity | apply st_alt_r, st_eps |].
    now apply video_after_scheme.
Qed.

(** C8: a URL of scheme http or https whose path ends in one of the
    eight media extensions, with or without a query string after it, is
    classified [Video].  A URL holds no line terminator, which is what
    [lineless] says of the part before the extension and of the
    query. *)
Theorem C8_media_url_is_video secure body ext query page :
  In ext videoExtensions -> lineless body = true ->
  match query with Some q => lineless q = true | None => True end ->
  LinkType main financial_results (mediaUrl secure body ext query) page
  = Video.
Proof.
  intros Hext Hbody Hq. unfold LinkType.
  now rewrite video_media.
Qed.

(** *** The listed rules and the first match *)

Lemma LinkType_patternRule url page :
  LinkType main financial_results url page =
  match patternRule url with
  | Some tag => tag
  | None =>
      if ignoreListed main financial_results url page then Ignore
      else NONE
  end.
Proof.
  unfold LinkType, patternRule, ignoreListed.
  repeat match goal with
         | |- context [if ?c then _ else _] => destruct c; try reflexivity
         end.
Qed.

(** C1, as amended: on the financial-results page a request is
    classified [Ignore] unless its URL matches the media-file, an
    analytics or a YouTube pattern, or the beacon pattern and no
    recaptcha pattern; such a URL gets [Video], [GA], [YT] or
    [Exception], by the first of the rules that matches, as on any other
    page. *)
Theorem C1_financial_page_ignored_after_patterns url :
  (test videoPattern url = true ->
   LinkType main financial_results url (main ++ financial_results) = Video)
  /\ (test videoPattern url = false ->
      existsb (fun pattern => test pattern url) gaPatterns = true ->
      LinkType main financial_results url (main ++ financial_results) = GA)
  /\ (test videoPattern url = false ->
      existsb (fun pattern => test pattern url) gaPatterns = false ->
      existsb (fun pattern => test pattern url) youtubePatterns = true ->
      LinkType main financial_results url (main ++ financial_results) = YT)
  /\ (test videoPattern url = false ->
      existsb (fun pattern => test pattern url) gaPatterns = false ->
      existsb (fun pattern => test pattern url) youtubePatterns = false ->
      existsb (fun pattern => test pattern url) recaptchaPatterns = true ->
      LinkType main financial_results url (main ++ financial_results)
      = Ignore)
  /\ (test videoPattern url = false ->
      existsb (fun pattern => test pattern url) gaPatterns = false ->
      existsb (fun pattern => test pattern url) youtubePatterns = false ->
      existsb (fun pattern => test pattern url) recaptchaPatterns = false ->
      test exceptPattern url = true ->
      LinkType main financial_results url (main ++ financial_results)
      = Exception)
  /\ (test videoPattern url = false ->
      existsb (fun pattern => test pattern url) gaPatterns = false ->
      existsb (fun pattern => test pattern url) youtubePatterns = false ->
      existsb (fun pattern => test pattern url) recaptchaPatterns = false ->
      test exceptPattern url = false ->
      LinkType main financial_results url (main ++ financial_results)
      = Ignore).
Proof.
  unfold LinkType. repeat split; intros;
    repeat match goal with H : _ = _ |- _ => rewrite H; clear H end;
    try reflexivity.
  unfold exceptPages. cbn [existsb].
  now rewrite jseqb_refl, !orb_true_r.
Qed.

(** C7: [LinkType] returns one of the six literals on every pair of
    strings, and the default one when no pattern rule and no ignore
    list entry matches. *)
Theorem C7_total_with_default url page :
  (exists tag, LinkType main financial_results url page = tag
               /\ In (tag_literal tag)
                    ["Video"; "GA"; "YT"; "Ignore"; "Exception"; "NONE"]
                    %string)
  /\ (patternRule url = None ->
      ignoreListed main financial_results url page = false ->
      LinkType main financial_results url page = NONE).
Proof.
  split.
  - exists (LinkType main financial_results url page). split; [easy|].
    destruct (LinkType main financial_results url page); simpl; tauto.
  - intros H1 H2. now rewrite LinkType_patternRule, H1, H2.
Qed.

(** *** The beacon pattern is not anchored *)

Lemma test_unanchored r pre m post :
  bol_free r = true -> eol_free r = true ->
  test (mk r false) m = true ->
  test (mk r false) (pre ++ m ++ post) = true.
Proof.
  intros Hb He H. apply test_iff in H as (p & rest & s' & -> & H).
  apply test_iff. exists (pre ++ p), (rest ++ post), (s' ++ post).
  split; [now rewrite !app_assoc|].
  apply steps_extend; [assumption|].
  eapply steps_flag; eauto.
Qed.

(** C9: a URL that holds the beacon shape anywhere, so also the
    canonical beacon followed by further query parameters, is
    classified [Exception] when none of the four rules before it
    matches. *)
Theorem C9_beacon_unanchored pre m post page :
  test exceptPattern m = true ->
  test videoPattern (pre ++ m ++ post) = false ->
  existsb (fun pattern => test pattern (pre ++ m ++ post)) gaPatterns
  = false ->
  existsb (fun pattern => test pattern (pre ++ m ++ post)) youtubePatterns
  = false ->
  existsb (fun pattern => test pattern (pre ++ m ++ post))
    recaptchaPatterns = false ->
  LinkType main financial_results (pre ++ m ++ post) page = Exception.
Proof.
  intros Hm Hv Hg Hy Hr. unfold LinkType.
  rewrite Hv, Hg, Hy, Hr.
  unfold exceptPattern in *.
  now rewrite test_unanchored.
Qed.

(** *** The recaptcha table *)

Lemma test_lit_weaken w x r u :
  test (mk (Lit (w ++ x) ;; r) false) u = true ->
  test (mk (Lit w ;; Star (Chr Dot)) false) u = true.
Proof.
  intros H. apply test_iff in H as (pre & rest & s' & -> & H).
  inversion H as [| | | | |? ? ? ? s1 ? H1 H2| | | |]; subst.
  inversion H1; subst.
  apply test_iff. exists pre, ((w ++ x) ++ s1), (x ++ s1).
  split; [reflexivity|].
  eapply seq_bf with (b2 := false); [reflexivity| |apply st_star_nil].
  rewrite <- app_assoc. apply st_lit.
Qed.

Lemma recaptcha_first_decides url :
  existsb (fun pattern => test pattern url) recaptchaPatterns
  = test (mk (Lit (str "https://www.google.com/recaptcha/")
              ;; Star (Chr Dot)) false) url.
Proof.
  unfold recaptchaPatterns. cbn [existsb].
  destruct (test (mk (Lit (str "https://www.google.com/recaptcha/")
                      ;; Star (Chr Dot)) false) url) eqn:E1;
    [reflexivity|]. cbn [orb].
  destruct (test (mk (Lit (str "https://www.google.com/recaptcha/api2/")
                      ;; Star (Chr Dot)) false) url) eqn:E2.
  { change (str "https://www.google.com/recaptcha/api2/")
      with (str "https://www.google.com/recaptcha/" ++ str "api2/") in E2.
    apply test_lit_weaken in E2. congruence. }
  destruct (test (mk (Lit (str "https://www.google.com/recaptcha/enterprise/")
                      ;; Star (Chr Dot)) false) url) eqn:E3.
  { change (str "https://www.google.com/recaptcha/enterprise/")
      with (str "https://www.google.com/recaptcha/" ++ str "enterprise/")
      in E3.
    apply test_lit_weaken in E3. congruence. }
  reflexivity.
Qed.

(** C10: keeping only the first recaptcha pattern changes no
    classification. *)
Theorem C10_recaptcha_redundant url page :
  LinkType_recaptcha1 main financial_results url page
  = LinkType main financial_results url page.
Proof.
  unfold LinkType_recaptcha1, LinkType.
  rewrite recaptcha_first_decides.
  cbn [firstn recaptchaPatterns existsb]. now rewrite orb_false_r.
Qed.

(** *** Order of the rules *)

Lemma firstMatch_first rs url page k tag :
  firstMatch rs url page = Some (k, tag) ->
  (exists applies, nth_error rs k = Some (applies, tag)
                   /\ applies url page = true)
  /\ forall j applies' tag', j < k ->
       nth_error rs j = Some (applies', tag') ->
       applies' url page = false.
Proof.
  revert k; induction rs as [|[applies t] rs IH]; intros k; simpl;
    [discriminate|].
  destruct (applies url page) eqn:E.
  - intros [= <- <-]. split; [exists applies; now split | intros; lia].
  - destruct (firstMatch rs url page) as [[k' t']|] eqn:F;
      [|discriminate].
    intros [= <- <-]. destruct (IH k' eq_refl) as [IH1 IH2].
    split; [exact IH1|].
    intros [|j] applies' tag' Hj; simpl.
    + now intros [= <- <-].
    + apply IH2; lia.
Qed.

Lemma firstMatch_none rs url page :
  firstMatch rs url page = None ->
  forall applies tag, In (applies, tag) rs -> applies url page = false.
Proof.
  induction rs as [|[applies t] rs IH]; simpl; [easy|].
  destruct (applies url page) eqn:E; [discriminate|].
  destruct (firstMatch rs url page) as [[k' t']|]; [discriminate|].
  intros _ a tg [[= <- <-]|Hin]; eauto.
Qed.

Lemma LinkType_firstMatch url page :
  LinkType main financial_results url page =
  match firstMatch (rules main financial_results) url page with
  | Some (_, tag) => tag
  | None => NONE
  end.
Proof.
  unfold LinkType, rules, firstMatch, ignoreListed.
  repeat match goal with
         | |- context [if ?c then _ else _] => destruct c; try reflexivity
         end.
Qed.

(** C3: the tag is the one of the first rule, in the order Video, GA,
    YT, recaptcha, Exception, ignore lists, that applies, and the
    default when none does; so a URL the media-file pattern matches is
    [Video] whatever else matches it, and when a pattern rule applies
    the ignore lists and the page have no say. *)
Theorem C3_first_match_wins url page :
  match firstMatch (rules main financial_results) url page with
  | Some (k, tag) =>
      LinkType main financial_results url page = tag
      /\ (exists applies,
             nth_error (rules main financial_results) k
             = Some (applies, tag)
             /\ applies url page = true)
      /\ (forall j applies' tag', j < k ->
            nth_error (rules main financial_results) j
            = Some (applies', tag') ->
            applies' url page = false)
  | None =>
      LinkType main financial_results url page = NONE
      /\ forall applies tag,
           In (applies, tag) (rules main financial_results) ->
           applies url page = false
  end
  /\ (test videoPattern url = true ->
      LinkType main financial_results url page = Video)
  /\ (forall tag, patternRule url = Some tag ->
      forall main' financial_results' page',
        LinkType main' financial_results' url page' = tag).
Proof.
  split; [|split].
  - rewrite LinkType_firstMatch.
    destruct (firstMatch (rules main financial_results) url page)
      as [[k tag]|] eqn:F.
    + split; [reflexivity|]. now apply firstMatch_first.
    + split; [reflexivity|]. now apply firstMatch_none.
  - intros H. unfold LinkType. now rewrite H.
  - intros tag H main' fr' page'.
    unfold LinkType, patternRule in *.
    repeat match goal with
           | |- context [if ?c then _ else _] =>
               destruct c; try congruence
           end.
Qed.

(** *** Reordered and shortened beacons *)

Lemma lacks_In c s : lacks c s = true -> ~ In c s.
Proof.
  unfold lacks. rewrite forallb_forall. intros H Hin.
  apply H in Hin. now rewrite N.eqb_refl in Hin.
Qed.

Lemma lacks_app c s t : lacks c (s ++ t) = lacks c s && lacks c t.
Proof. apply forallb_app. Qed.

Lemma join_cons p l : join (p :: l) = p ++ queryTail l.
Proof. reflexivity. Qed.

Lemma queryTail_head l :
  queryTail l = [] \/ exists t, queryTail l = amp :: t.
Proof. destruct l; simpl; eauto. Qed.

Lemma lit_tail c w t p tail :
  lacks c w = true -> (tail = [] \/ exists u, tail = c :: u) ->
  w ++ t = p ++ tail -> exists q, p = w ++ q /\ t = q ++ tail.
Proof.
  intros Hw Ht. revert p; induction w as [|a w IH]; intros p E.
  - exists p. now split.
  - simpl in Hw. apply andb_true_iff in Hw as [Ha Hw].
    destruct p as [|a' p]; simpl in E.
    + destruct Ht as [->|[u ->]]; [discriminate|].
      injection E as -> _. now rewrite N.eqb_refl in Ha.
    + injection E as <- E. destruct (IH Hw p E) as (q & -> & ->).
      exists q. now split.
Qed.

Lemma steps_tail c r b s s' :
  steps r b s s' ->
  forall p tail, avoids c r = true ->
    (tail = [] \/ exists u, tail = c :: u) -> s = p ++ tail ->
    exists x q, p = x ++ q /\ s' = q ++ tail.
Proof.
  induction 1; intros p tail Ha Ht E; simpl in Ha;
    try apply andb_true_iff in Ha as [Ha1 Ha2].
  - exists [], p. now split.
  - destruct p as [|a p]; simpl in E.
    + destruct Ht as [->|[u ->]]; [discriminate|].
      injection E as -> _.
      match goal with H : cls_test _ _ _ = true |- _ =>
        rewrite H in Ha end. discriminate.
    + injection E as -> ->. exists [a], p. now split.
  - destruct (lit_tail c w s p tail Ha Ht E) as (q & -> & ->).
    exists w, q. now split.
  - exists [], p. now split.
  - symmetry in E. apply app_eq_nil in E as [-> ->].
    exists [], []. now split.
  - destruct (IHsteps1 p tail Ha1 Ht E) as (x1 & q1 & -> & ->).
    destruct (IHsteps2 q1 tail Ha2 Ht eq_refl) as (x2 & q2 & -> & ->).
    exists (x1 ++ x2), q2. now rewrite app_assoc.
  - eauto.
  - eauto.
  - exists [], p. now split.
  - destruct (IHsteps1 p tail Ha Ht E) as (x1 & q1 & -> & ->).
    destruct (IHsteps2 q1 tail Ha Ht eq_refl) as (x2 & q2 & -> & ->).
    exists (x1 ++ x2), q2. now rewrite app_assoc.
Qed.

Lemma lit_inv w b s s' : steps (Lit w) b s s' -> s = w ++ s'.
Proof. now inversion 1. Qed.

Lemma seq_inv r1 r2 b s s' :
  steps (r1 ;; r2) b s s' ->
  exists s1 b', steps r1 b s s1 /\ steps r2 b' s1 s'.
Proof. inversion 1; subst; eauto. Qed.

(** A part of the pattern that cannot read [&] stays inside the
    parameter it started in. *)
Lemma chain_atom a r b q l s' :
  avoids amp a = true -> lacks amp q = true ->
  steps (a ;; r) b (q ++ queryTail l) s' ->
  exists q' b', lacks amp q' = true /\ steps r b' (q' ++ queryTail l) s'.
Proof.
  intros Ha Hq H. apply seq_inv in H as (s1 & b' & H1 & H2).
  destruct (steps_tail amp _ _ _ _ H1 q (queryTail l) Ha
              (queryTail_head l) eq_refl) as (x & q' & -> & ->).
  rewrite lacks_app in Hq. apply andb_true_iff in Hq as [_ Hq].
  eauto.
Qed.

(** A literal [&name] ends the current parameter and opens the next
    one, which then starts with [name]. *)
Lemma chain_next name r b q l s' :
  lacks amp name = true -> lacks amp q = true ->
  Forall (fun p => lacks amp p = true) l ->
  steps (Lit (amp :: name) ;; r) b (q ++ queryTail l) s' ->
  exists p l' q' b',
    l = p :: l' /\ p = name ++ q' /\ lacks amp q' = true
    /\ steps r b' (q' ++ queryTail l') s'.
Proof.
  intros Hn Hq Hl H. apply seq_inv in H as (s1 & b' & H1 & H2).
  apply lit_inv in H1 as E.
  destruct q as [|a q]; simpl in E.
  - destruct l as [|p l']; [discriminate|].
    simpl in E. injection E as E.
    inversion Hl as [|? ? Hp Hl']; subst.
    fold (queryTail l') in E. symmetry in E.
    destruct (lit_tail amp name s1 p (queryTail l') Hn
                (queryTail_head l') E) as (q' & -> & ->).
    rewrite lacks_app in Hp. apply andb_true_iff in Hp as [_ Hp].
    exists (name ++ q'), l', q', b'. now repeat split.
  - injection E as -> _. simpl in Hq. discriminate.
Qed.

Lemma startsWith_app w q : startsWith w (w ++ q) = true.
Proof.
  unfold startsWith.
  assert (E : lit_run false w (w ++ q) = Some q) by now apply lit_run_spec.
  now rewrite E.
Qed.

Lemma param_by_name name q :
  In (name ++ q) beaconParams ->
  In (name ++ q) (filter (startsWith name) beaconParams).
Proof. intros H. apply filter_In. split; [exact H | apply startsWith_app]. Qed.

Lemma head_unique (c : cu) pre x u :
  pre ++ c :: x = c :: u -> lacks c u = true -> pre = [].
Proof.
  intros E Hu. destruct pre as [|a pre]; [reflexivity|].
  simpl in E. injection E as -> <-.
  rewrite lacks_app in Hu. simpl in Hu.
  rewrite N.eqb_refl, andb_false_r in Hu. discriminate.
Qed.

Lemma chain_lit w name r b q l s' :
  w = amp :: name ->
  lacks amp name = true -> lacks amp q = true ->
  Forall (fun p => lacks amp p = true) l ->
  steps (Lit w ;; r) b (q ++ queryTail l) s' ->
  exists p l' q' b',
    l = p :: l' /\ p = name ++ q' /\ lacks amp q' = true
    /\ Forall (fun p => lacks amp p = true) l'
    /\ steps r b' (q' ++ queryTail l') s'.
Proof.
  intros -> Hn Hq Hl H.
  destruct (chain_next name r b q l s' Hn Hq Hl H)
    as (p & l' & q' & b' & -> & -> & Hq' & H').
  inversion Hl; subst. exists (name ++ q'), l', q', b'. now repeat split.
Qed.

Lemma param_is name q P :
  filter (startsWith name) beaconParams = [P] ->
  In (name ++ q) beaconParams -> name ++ q = P.
Proof.
  intros E H. apply param_by_name in H. rewrite E in H.
  destruct H as [<-|[]]. reflexivity.
Qed.

Lemma lacks_join c l :
  N.eqb amp c = false -> Forall (fun p => lacks c p = true) l ->
  lacks c (join l) = true.
Proof.
  intros Hc. induction 1 as [|p l Hp Hl IH]; [reflexivity|].
  rewrite join_cons, lacks_app, Hp. simpl.
  destruct l as [|p' l']; [reflexivity|].
  cbn [queryTail lacks forallb]. rewrite Hc. exact IH.
Qed.

Lemma beaconParams_lack c :
  forallb (lacks c) beaconParams = true ->
  forall l, incl l beaconParams -> Forall (fun p => lacks c p = true) l.
Proof.
  intros H l Hincl. apply Forall_forall. intros p Hp.
  rewrite forallb_forall in H. auto.
Qed.

(** One step along the beacon pattern: [value] reads the value of the
    current parameter, [param] the [&] and the name of the next one. *)
Ltac value H :=
  let q := fresh "q" in let b := fresh "b" in let Hq := fresh "Hq" in
  apply chain_atom in H as (q & b & Hq & H); [|reflexivity|assumption].

Ltac param name H :=
  let p := fresh "p" in let l := fresh "l" in let q := fresh "q" in
  let b := fresh "b" in let Hq := fresh "Hq" in
  let Hl := fresh "Hl" in
  apply (chain_lit _ (str name)) in H
    as (p & l & q & b & -> & -> & Hq & Hl & H);
  [|reflexivity|reflexivity|assumption|assumption].

Lemma beacon_match l :
  NoDup l -> incl l beaconParams ->
  test exceptPattern (beacon l) = true -> l = beaconParams.
Proof.
  intros Hnd Hincl H.
  assert (Hamp := beaconParams_lack amp eq_refl l Hincl).
  assert (Hh := beaconParams_lack 104%N eq_refl l Hincl).
  apply test_iff in H as (pre & rest & s' & E & H).
  unfold exceptSource in H.
  apply seq_inv in H as (t0 & b0 & H0 & H).
  apply lit_inv in H0. subst rest.
  assert (Hpre : pre = []).
  { change (str "https://stats.g.doubleclick.net/g/collect?v=" ++ t0)
      with (104%N :: (str "ttps://stats.g.doubleclick.net/g/collect?v="
                        ++ t0)) in E.
    change (beacon l)
      with (104%N :: (str "ttps://stats.g.doubleclick.net/g/collect"
                        ++ match l with
                           | [] => []
                           | _ :: _ => qmark :: join l
                           end)) in E.
    symmetry in E. apply head_unique in E; [assumption|].
    rewrite lacks_app. apply andb_true_iff. split; [reflexivity|].
    destruct l; [reflexivity|]. cbn [lacks forallb].
    apply andb_true_iff. split; [reflexivity|].
    now apply lacks_join. }
  subst pre. cbn [app] in E. unfold beacon in E.
  change (str "https://stats.g.doubleclick.net/g/collect?v=")
    with (beaconBase ++ qmark :: str "v=") in E.
  rewrite <- app_assoc in E. apply app_inv_head in E.
  destruct l as [|p0 l0]; [discriminate|].
  cbn [app] in E. injection E as E.
  change (p0 ++ queryTail l0 = str "v=" ++ t0) in E.
  symmetry in E.
  destruct (lit_tail amp (str "v=") t0 p0 (queryTail l0) eq_refl
              (queryTail_head l0) E) as (q0 & -> & ->).
  assert (Hq0 := Forall_inv Hamp). assert (Hl0 := Forall_inv_tail Hamp).
  cbv beta in Hq0.
  rewrite lacks_app in Hq0. apply andb_true_iff in Hq0 as [_ Hq0].
  clear E Hamp Hh.
  value H. param "tid=G-"%string H.
  value H. param "cid="%string H.
  value H. value H. value H. param "gtm="%string H.
  value H. param "aip="%string H.
  value H. param "dma="%string H.
  value H. param "gcd="%string H.
  value H. param "npa="%string H.
  value H. param "frm="%string H.
  value H. param "tag_exp="%string H.
  clear - Hincl Hnd.
  repeat match type of Hincl with
         | context [(?n ++ ?q) :: _] =>
             let Hi := fresh "Hi" in
             assert (Hi : In (n ++ q) beaconParams)
               by (apply Hincl; simpl; tauto);
             eapply param_is in Hi; [|vm_compute; reflexivity];
             rewrite Hi in Hincl, Hnd |- *; clear Hi
         end.
  apply NoDup_incl_length in Hincl; [|exact Hnd].
  destruct l as [|p l]; [reflexivity|].
  vm_compute in Hincl. lia.
Qed.

Lemma beacon_canonical : beacon beaconParams = canonicalBeacon.
Proof. reflexivity. Qed.

Lemma canonical_is_exception page :
  LinkType main financial_results canonicalBeacon page = Exception.
Proof.
  unfold LinkType.
  replace (test videoPattern canonicalBeacon) with false
    by (vm_compute; reflexivity).
  replace (existsb (fun pattern => test pattern canonicalBeacon) gaPatterns)
    with false by (vm_compute; reflexivity).
  replace (existsb (fun pattern => test pattern canonicalBeacon)
             youtubePatterns)
    with false by (vm_compute; reflexivity).
  replace (existsb (fun pattern => test pattern canonicalBeacon)
             recaptchaPatterns)
    with false by (vm_compute; reflexivity).
  replace (test exceptPattern canonicalBeacon) with true
    by (vm_compute; reflexivity).
  reflexivity.
Qed.

(** C4: the canonical beacon URL is classified [Exception]; a URL made
    of the same base and of some of its query parameters, each at most
    once and in any order, other than the canonical list itself, is
    not, and it gets the default tag when no rule before the beacon
    rule and no ignore list applies to it. *)
Theorem C4_beacon_exact_order page :
  LinkType main financial_results canonicalBeacon page = Exception
  /\ forall l,
       NoDup l -> incl l beaconParams -> l <> beaconParams ->
       LinkType main financial_results (beacon l) page <> Exception
       /\ (test videoPattern (beacon l) = false ->
           existsb (fun pattern => test pattern (beacon l)) gaPatterns
           = false ->
           existsb (fun pattern => test pattern (beacon l)) youtubePatterns
           = false ->
           existsb (fun pattern => test pattern (beacon l))
             recaptchaPatterns = false ->
           ignoreListed main financial_results (beacon l) page = false ->
           LinkType main financial_results (beacon l) page = NONE).
Proof.
  split; [apply canonical_is_exception|].
  intros l Hnd Hincl Hne.
  assert (Hx : test exceptPattern (beacon l) = false).
  { destruct (test exceptPattern (beacon l)) eqn:E; [|reflexivity].
    now apply beacon_match in E. }
  split.
  - unfold LinkType. rewrite Hx.
    repeat match goal with
           | |- context [if ?c then _ else _] => destruct c; try discriminate
           end.
  - intros Hv Hg Hy Hr Hi. unfold LinkType, ignoreListed in *.
    now rewrite Hv, Hg, Hy, Hr, Hx, Hi.
Qed.

End ClassifierFacts.

(** *** The statements at concrete requests *)

Example LinkType_first_party :
  LinkType exampleMain exampleFinancialResults exampleApiCall exampleMain
  = NONE.
Proof. vm_compute. reflexivity. Qed.

Example LinkType_analytics_any_case :
  LinkType exampleMain exampleFinancialResults
    (str "HTTPS://WWW.Google-Analytics.com/collect") exampleMain = GA.
Proof. vm_compute. reflexivity. Qed.

Example LinkType_youtube :
  LinkType exampleMain exampleFinancialResults
    (str "https://www.youtube.com/watch?v=abc-1&t=1") exampleMain = YT.
Proof. vm_compute. reflexivity. Qed.

Example LinkType_recaptcha :
  LinkType exampleMain exampleFinancialResults
    (str "https://www.google.com/recaptcha/api2/anchor") exampleMain
  = Ignore.
Proof. vm_compute. reflexivity. Qed.

Example LinkType_subscribe :
  LinkType exampleMain exampleFinancialResults
    (exampleMain ++ str "api/subscribe") exampleMain = Ignore.
Proof. vm_compute. reflexivity. Qed.

(** C1, as the specification words it, fails: requested on the
    financial-results page, a media file, an analytics URL, a YouTube
    URL and the canonical beacon are not classified [Ignore]. *)
Lemma C1_counterexample :
  LinkType exampleMain exampleFinancialResults exampleMediaFile
    (exampleMain ++ exampleFinancialResults) <> Ignore
  /\ LinkType exampleMain exampleFinancialResults exampleAnalytics
       (exampleMain ++ exampleFinancialResults) <> Ignore
  /\ LinkType exampleMain exampleFinancialResults exampleWatch
       (exampleMain ++ exampleFinancialResults) <> Ignore
  /\ LinkType exampleMain exampleFinancialResults canonicalBeacon
       (exampleMain ++ exampleFinancialResults) <> Ignore.
Proof. repeat split; vm_compute; discriminate. Qed.

Lemma C1_witness :
  LinkType exampleMain exampleFinancialResults exampleMediaFile
    (exampleMain ++ exampleFinancialResults) = Video
  /\ LinkType exampleMain exampleFinancialResults exampleAnalytics
       (exampleMain ++ exampleFinancialResults) = GA
  /\ LinkType exampleMain exampleFinancialResults exampleWatch
       (exampleMain ++ exampleFinancialResults) = YT
  /\ LinkType exampleMain exampleFinancialResults exampleRecaptcha
       (exampleMain ++ exampleFinancialResults) = Ignore
  /\ LinkType exampleMain exampleFinancialResults canonicalBeacon
       (exampleMain ++ exampleFinancialResults) = Exception
  /\ LinkType exampleMain exampleFinancialResults exampleApiCall
       (exampleMain ++ exampleFinancialResults) = Ignore.
Proof.
  split; [|split; [|split; [|split; [|split]]]].
  - destruct (C1_financial_page_ignored_after_patterns exampleMain
                exampleFinancialResults exampleMediaFile)
      as (H & _ & _ & _ & _ & _).
    apply H; vm_compute; reflexivity.
  - destruct (C1_financial_page_ignored_after_patterns exampleMain
                exampleFinancialResults exampleAnalytics)
      as (_ & H & _ & _ & _ & _).
    apply H; vm_compute; reflexivity.
  - destruct (C1_financial_page_ignored_after_patterns exampleMain
                exampleFinancialResults exampleWatch)
      as (_ & _ & H & _ & _ & _).
    apply H; vm_compute; reflexivity.
  - destruct (C1_financial_page_ignored_after_patterns exampleMain
                exampleFinancialResults exampleRecaptcha)
      as (_ & _ & _ & H & _ & _).
    apply H; vm_compute; reflexivity.
  - destruct (C1_financial_page_ignored_after_patterns exampleMain
                exampleFinancialResults canonicalBeacon)
      as (_ & _ & _ & _ & H & _).
    apply H; vm_compute; reflexivity.
  - destruct (C1_financial_page_ignored_after_patterns exampleMain
                exampleFinancialResults exampleApiCall)
      as (_ & _ & _ & _ & _ & H).
    apply H; vm_compute; reflexivity.
Defined.

Lemma C3_witness :
  test videoPattern exampleWatchMedia = true
  /\ existsb (fun pattern => test pattern exampleWatchMedia) youtubePatterns
     = true
  /\ LinkType exampleMain exampleFinancialResults exampleWatchMedia
       exampleFinancialPage = Video
  /\ LinkType exampleFinancialPage exampleMain exampleWatchMedia
       exampleApiCall = Video.
Proof.
  destruct (C3_first_match_wins exampleMain exampleFinancialResults
              exampleWatchMedia exampleFinancialPage) as (_ & Hv & Hp).
  split; [vm_compute; reflexivity|].
  split; [vm_compute; reflexivity|].
  split.
  - apply Hv. vm_compute; reflexivity.
  - apply Hp. vm_compute; reflexivity.
Defined.

Lemma C4_witness :
  LinkType exampleMain exampleFinancialResults
    (beacon [str "tid=G-ABC123"; str "v=1"]) exampleMain = NONE.
Proof.
  destruct (C4_beacon_exact_order exampleMain exampleFinancialResults
              exampleMain) as [_ H].
  destruct (H [str "tid=G-ABC123"; str "v=1"]) as [_ Hd].
  - repeat constructor; simpl; intuition discriminate.
  - intros p [<-|[<-|[]]]; vm_compute; tauto.
  - discriminate.
  - apply Hd; vm_compute; reflexivity.
Defined.

Lemma C7_witness :
  LinkType exampleMain exampleFinancialResults exampleApiCall exampleMain
  = NONE.
Proof.
  destruct (C7_total_with_default exampleMain exampleFinancialResults
              exampleApiCall exampleMain) as [_ H].
  apply H; vm_compute; reflexivity.
Defined.

Lemma C8_witness :
  LinkType exampleMain exampleFinancialResults
    (mediaUrl true (str "cdn.example.com/video/intro") (str "mp4")
       (Some (str "t=10")))
    exampleMain = Video.
Proof.
  apply C8_media_url_is_video.
  - left. reflexivity.
  - vm_compute; reflexivity.
  - vm_compute; reflexivity.
Defined.

Lemma C9_witness :
  LinkType exampleMain exampleFinancialResults
    ([] ++ canonicalBeacon ++ str "&extra=1") exampleMain = Exception.
Proof.
  apply C9_beacon_unanchored; vm_compute; reflexivity.
Defined.

Section PageClassFacts.
Import PageClass.
Local Open Scope string_scope.

Lemma extends_refl l : extends l l.
Proof. split; [reflexivity|]. exists []. now rewrite app_nil_r. Qed.


Lemma addId_extends o b l : extends l (addId o b l).
Proof.
  unfold addId. destruct (truthy (id o)); [|apply extends_refl].
  destruct (isBase b idBase); [apply extends_refl|].
  split; [reflexivity|]. simpl. eauto.
Qed.

Lemma addClasses_extends o b l : extends l (addClasses o b l).
Proof.
  unfold addClasses. destruct (truthy (classes o)); [|apply extends_refl].
  destruct (isBase b classesBase); [apply extends_refl|].
  split; [reflexivity|]. simpl. eauto.
Qed.

Lemma addRole_extends o b l : extends l (addRole o b l).
Proof.
  unfold addRole. destruct (truthy (role o)); [|apply extends_refl].
  destruct (isBase b roleBase); [apply extends_refl|].
  split; [reflexivity|]. simpl. eauto.
Qed.

Lemma addTag_extends o b l : extends l (addTag o b l).
Proof.
  unfold addTag. destruct (truthy (tag o)); [|apply extends_refl].
  destruct (isBase b tagBase); [apply extends_refl|].
  split; [reflexivity|]. simpl. eauto.
Qed.

Lemma addText_extends o b l : extends l (addText o b l).
Proof.
  unfold addText. destruct (truthy (text o)); [|apply extends_refl].
  destruct (isBase b textBase); [apply extends_refl|].
  split; [reflexivity|]. simpl. eauto.
Qed.

Lemma addNth_extends o l : extends l (addNth o l).
Proof.
  unfold addNth. destruct (nth o) as [[n|]|]; try apply extends_refl;
    (split; [reflexivity|]; simpl; eauto).
Qed.

Create HintDb locator.

#[local] Hint Resolve extends_refl addId_extends addClasses_extends
  addRole_extends addTag_extends addText_extends addNth_extends : locator.





(** C2: with a test id and a class, [TestVisible] and [TestExist] return
    the test-id locator alone, so the class is dropped, where
    [clickElement] on the same options refines by it. *)
Theorem C2_TestVisible_drops_classes :
  TestVisible testIdAndClasses = Ok (OnPage (getByTestId "x"))
  /\ TestExist testIdAndClasses = Ok (OnPage (getByTestId "x"))
  /\ clickElement testIdAndClasses
     = Ok (Within (OnPage (getByTestId "x")) (locator ".c")).
Proof. repeat split; reflexivity. Qed.

End PageClassFacts.




(** * Further properties of the classifier and of the response handler *)

Section ResponseFacts.

Variables main financial_results : jsstring.

(** The default branch accepts every status that the branch of a tag
    accepts: a tagged request is held to a narrower set of status codes
    than an untagged one. *)
Theorem default_accepts_what_tags_accept tag status :
  responseCheck tag status = Expect true ->
  responseCheck NONE status = Expect true.
Proof.
  destruct tag; simpl; try discriminate; try (intros H; exact H);
    intros [= H]; f_equal;
    repeat (apply orb_true_iff in H as [H|H]);
    apply Z.eqb_eq in H; subst; reflexivity.
Qed.

(** A status below 200 or from 400 on fails the test for every request
    but those tagged [Exception] or [Ignore], which are not looked at. *)
Theorem error_status_fails url page status :
  (status < 200 \/ 400 <= status)%Z ->
  onResponse main financial_results url page status =
  match LinkType main financial_results url page with
  | Exception | Ignore => NoCheck
  | _ => Expect false
  end.
Proof.
  intros H. unfold onResponse.
  destruct (LinkType main financial_results url page); simpl;
    try reflexivity; f_equal;
    repeat match goal with
           | |- context [(?a =? ?b)%Z] =>
               destruct (Z.eqb_spec a b); [lia|]
           end; simpl; try reflexivity.
  destruct (Z.geb_spec status 300), (Z.ltb_spec status 400);
    simpl; try reflexivity; lia.
Qed.

(** The check of a media file is the same on every page, the
    financial-results page included: its status has to be 200, 204, 206
    or 304. *)
Theorem media_checked_on_every_page secure body ext query page status :
  In ext videoExtensions -> lineless body = true ->
  match query with Some q => lineless q = true | None => True end ->
  onResponse main financial_results (mediaUrl secure body ext query) page
    status
  = Expect ((status =? 200) || (status =? 204) || (status =? 206)
            || (status =? 304))%Z.
Proof.
  intros Hext Hbody Hq. unfold onResponse, LinkType.
  now rewrite video_media.
Qed.

(** On the financial-results page a response to a URL that no pattern
    matches is never looked at, whatever its status. *)
Theorem financial_page_unchecked url status :
  patternRule url = None ->
  onResponse main financial_results url (main ++ financial_results) status
  = NoCheck.
Proof.
  intros H. unfold onResponse. rewrite LinkType_patternRule, H.
  unfold ignoreListed, exceptPages. cbn [existsb].
  now rewrite jseqb_refl, !orb_true_r.
Qed.

Lemma ignoreListed_iff url page :
  ignoreListed main financial_results url page = true <->
  In url (exceptUrls main) \/ page = main ++ financial_results.
Proof.
  unfold ignoreListed. rewrite orb_true_iff, !existsb_exists. split.
  - intros [(x & Hx & E)|(x & Hx & E)]; apply jseqb_eq in E; subst.
    + now left.
    + right. destruct Hx as [<-|[]]. reflexivity.
  - intros [H| ->].
    + left. exists url. split; [exact H | apply jseqb_refl].
    + right. exists (main ++ financial_results).
      split; [now left | apply jseqb_refl].
Qed.

(** The ignore lists are compared for equality: a URL that no pattern
    matches is [Ignore] exactly when it is one of the three listed URLs
    or the page is the financial-results page, and the default tag
    otherwise. *)
Theorem ignore_lists_are_exact url page :
  patternRule url = None ->
  (LinkType main financial_results url page = Ignore <->
   In url (exceptUrls main) \/ page = main ++ financial_results)
  /\ (LinkType main financial_results url page = NONE <->
      ~ (In url (exceptUrls main) \/ page = main ++ financial_results)).
Proof.
  intros H. rewrite LinkType_patternRule, H, <- ignoreListed_iff.
  destruct (ignoreListed main financial_results url page);
    intuition congruence.
Qed.

Lemma test_contains w r pre post s' :
  bol_free r = true -> steps r false post s' ->
  test (mk (Lit w ;; r) false) (pre ++ w ++ post) = true.
Proof.
  intros Hf H. apply test_iff. exists pre, (w ++ post), s'.
  split; [reflexivity|].
  eapply seq_bf; [exact Hf | apply st_lit | exact H].
Qed.

(** A URL that holds the DoubleClick ad-id ping path anywhere is [GA],
    unless the media-file pattern matches it. *)
Theorem ad_ping_is_GA pre post page :
  let url := pre ++ str "https://googleads.g.doubleclick.net/pagead/id"
               ++ post in
  test videoPattern url = false ->
  LinkType main financial_results url page = GA.
Proof.
  intros url Hv. unfold LinkType. rewrite Hv.
  assert (E : existsb (fun pattern => test pattern url) gaPatterns = true).
  { unfold gaPatterns. cbn [existsb].
    apply orb_true_iff. right. apply orb_true_iff. left.
    apply test_iff. exists pre, (str "https://googleads.g.doubleclick.net/pagead/id" ++ post), post.
    split; [reflexivity | apply st_lit]. }
  now rewrite E.
Qed.

(** A URL that holds [https://www.google.com/recaptcha/] anywhere is
    [Ignore], unless one of the three rules before matches it. *)
Theorem recaptcha_is_Ignore pre post page :
  let url := pre ++ str "https://www.google.com/recaptcha/" ++ post in
  test videoPattern url = false ->
  existsb (fun pattern => test pattern url) gaPatterns = false ->
  existsb (fun pattern => test pattern url) youtubePatterns = false ->
  LinkType main financial_results url page = Ignore.
Proof.
  intros url Hv Hg Hy. unfold LinkType. rewrite Hv, Hg, Hy.
  assert (E : existsb (fun pattern => test pattern url) recaptchaPatterns
              = true).
  { unfold recaptchaPatterns. cbn [existsb].
    apply orb_true_iff. left.
    apply test_contains with (s' := post);
      [reflexivity | apply st_star_nil]. }
  now rewrite E.
Qed.

Lemma youtube_head b head rest :
  In head youtubeHeads ->
  steps (Lit (str "watch?v=") <|> Lit (str "embed/")
         <|> (Lit (str "api/stats/") ;;
              (Lit (str "playback") <|> Lit (str "atr") <|> Lit (str "qoe")
               <|> Lit (str "ptracking") <|> Lit (str "watchtime")) ;;
              Lit (str "?"))
         <|> Lit (str "ptracking?") <|> Lit (str "v/") <|> Lit (str "c/")
         <|> Lit (str "user/") <|> Lit (str "channel/")
         <|> Lit (str "playlist?list=") <|> Lit (str "shorts/")
         <|> Lit (str "results?search_query="))%re
    b (head ++ rest) rest.
Proof.
  unfold youtubeHeads. cbn [map In].
  intros [<-|[<-|[<-|[<-|[<-|[<-|[<-|[<-|[<-|[<-|[<-|[<-|[<-|[<-|[<-|[]
          ]]]]]]]]]]]]]]].
  all: try solve [repeat first [apply st_lit | apply st_alt_l; apply st_lit
                               | apply st_alt_r]].
  - apply st_alt_r, st_alt_r, st_alt_l.
    change (str "api/stats/playback?" ++ rest)
      with (str "api/stats/" ++ str "playback" ++ str "?" ++ rest).
    eapply seq_bf with (b2 := false); [reflexivity | apply st_lit |].
    eapply seq_bf with (b2 := false); [reflexivity | | apply st_lit].
    repeat first [apply st_lit | apply st_alt_l; apply st_lit
                 | apply st_alt_r].
  - apply st_alt_r, st_alt_r, st_alt_l.
    change (str "api/stats/atr?" ++ rest)
      with (str "api/stats/" ++ str "atr" ++ str "?" ++ rest).
    eapply seq_bf with (b2 := false); [reflexivity | apply st_lit |].
    eapply seq_bf with (b2 := false); [reflexivity | | apply st_lit].
    repeat first [apply st_lit | apply st_alt_l; apply st_lit
                 | apply st_alt_r].
  - apply st_alt_r, st_alt_r, st_alt_l.
    change (str "api/stats/qoe?" ++ rest)
      with (str "api/stats/" ++ str "qoe" ++ str "?" ++ rest).
    eapply seq_bf with (b2 := false); [reflexivity | apply st_lit |].
    eapply seq_bf with (b2 := false); [reflexivity | | apply st_lit].
    repeat first [apply st_lit | apply st_alt_l; apply st_lit
                 | apply st_alt_r].
  - apply st_alt_r, st_alt_r, st_alt_l.
    change (str "api/stats/ptracking?" ++ rest)
      with (str "api/stats/" ++ str "ptracking" ++ str "?" ++ rest).
    eapply seq_bf with (b2 := false); [reflexivity | apply st_lit |].
    eapply seq_bf with (b2 := false); [reflexivity | | apply st_lit].
    repeat first [apply st_lit | apply st_alt_l; apply st_lit
                 | apply st_alt_r].
  - apply st_alt_r, st_alt_r, st_alt_l.
    change (str "api/stats/watchtime?" ++ rest)
      with (str "api/stats/" ++ str "watchtime" ++ str "?" ++ rest).
    eapply seq_bf with (b2 := false); [reflexivity | apply st_lit |].
    eapply seq_bf with (b2 := false); [reflexivity | | apply st_lit].
    repeat first [apply st_lit | apply st_alt_l; apply st_lit
                 | apply st_alt_r].
Qed.

(** The YouTube shapes: a URL that holds [https://youtube.com/] or
    [https://www.youtube.com/], one of the listed path heads and then at
    least one letter, digit, [_] or [-] is [YT], unless the media-file
    pattern or an analytics pattern matches it. *)
Theorem youtube_shapes_are_YT (www : bool) head c pre post page :
  let url := pre ++ str "https://" ++ (if www then str "www." else [])
               ++ str "youtube.com/" ++ head ++ c :: post in
  In head youtubeHeads -> cls_test false word_dash c = true ->
  test videoPattern url = false ->
  existsb (fun pattern => test pattern url) gaPatterns = false ->
  LinkType main financial_results url page = YT.
Proof.
  intros url Hh Hc Hv Hg. unfold LinkType. rewrite Hv, Hg.
  assert (E : existsb (fun pattern => test pattern url) youtubePatterns
              = true).
  { unfold youtubePatterns. cbn [existsb].
    apply orb_true_iff. left.
    apply test_iff. eexists pre, _, post. split; [reflexivity|].
    eapply seq_bf with (b2 := false); [reflexivity | apply st_lit |].
    destruct www; cbn [app].
    - eapply seq_bf with (b2 := false);
        [reflexivity | apply st_alt_l, st_lit |].
      eapply seq_bf with (b2 := false); [reflexivity | apply st_lit |].
      eapply seq_bf with (b2 := false);
        [reflexivity | apply youtube_head, Hh |].
      eapply seq_bf with (b2 := false); [reflexivity | | apply st_star_nil].
      eapply seq_bf with (b2 := false);
        [reflexivity | apply st_chr, Hc | apply st_star_nil].
    - eapply seq_bf with (b2 := false);
        [reflexivity | apply st_alt_r, st_eps |].
      eapply seq_bf with (b2 := false); [reflexivity | apply st_lit |].
      eapply seq_bf with (b2 := false);
        [reflexivity | apply youtube_head, Hh |].
      eapply seq_bf with (b2 := false); [reflexivity | | apply st_star_nil].
      eapply seq_bf with (b2 := false);
        [reflexivity | apply st_chr, Hc | apply st_star_nil]. }
  now rewrite E.
Qed.

(** *** Matching with the [i] flag *)

Lemma lit_run_ignoring_case w v s :
  sameIgnoringCase w v -> lit_run true w (v ++ s) = Some s.
Proof.
  unfold sameIgnoringCase. revert v; induction w as [|a w IH];
    intros [|c v] E; simpl in *; try discriminate; [reflexivity|].
  injection E as E1 E2. rewrite E1, N.eqb_refl. now apply IH.
Qed.

Lemma iter_ext f g :
  (forall b s, f b s = g b s) ->
  forall fuel b s, iter f fuel b s = iter g fuel b s.
Proof.
  intros H; induction fuel as [|n IH]; intros b s; simpl; [reflexivity|].
  rewrite H. f_equal. apply flat_map_ext. intros a. apply IH.
Qed.

Lemma run_flag ic r :
  bol_free r = true -> forall b b' s, run ic r b s = run ic r b' s.
Proof.
  induction r as [|k|w| | |r1 IH1 r2 IH2|r1 IH1 r2 IH2|r IH];
    simpl; intros Hf b b' s; try reflexivity; try discriminate.
  - apply andb_true_iff in Hf as [H1 H2].
    rewrite (IH1 H1 b b'). apply flat_map_ext. intros a. now apply IH2.
  - apply andb_true_iff in Hf as [H1 H2].
    now rewrite (IH1 H1 b b'), (IH2 H2 b b').
  - destruct (List.length s) as [|n]; simpl; [reflexivity|].
    now rewrite (IH Hf b b').
Qed.

Lemma in_seq ic r1 r2 b b2 s s1 s2 :
  bol_free r2 = true ->
  In s1 (run ic r1 b s) -> In s2 (run ic r2 b2 s1) ->
  In s2 (run ic (r1 ;; r2) b s).
Proof.
  intros Hf H1 H2. simpl. apply in_flat_map. exists s1. split; [exact H1|].
  now rewrite (run_flag ic r2 Hf _ b2).
Qed.

Lemma in_lit ic w b s : In s (run ic (Lit w) b (w ++ s)).
Proof.
  simpl. assert (E : lit_run ic w (w ++ s) = Some s).
  { induction w as [|a w IH]; simpl; [reflexivity|].
    now rewrite N.eqb_refl. }
  rewrite E. now left.
Qed.

Lemma in_lit_ignoring_case w v b s :
  sameIgnoringCase w v -> In s (run true (Lit w) b (v ++ s)).
Proof.
  intros H. simpl. rewrite (lit_run_ignoring_case w v s H). now left.
Qed.

Lemma in_star_dot ic b body rest :
  lineless body = true ->
  forall fuel, List.length (body ++ rest) <= fuel ->
  In rest (iter (run ic (Chr Dot)) fuel b (body ++ rest)).
Proof.
  revert b; induction body as [|c body IH]; intros b H fuel Hfuel.
  - destruct fuel; now left.
  - simpl in H. apply andb_true_iff in H as [Hc H].
    destruct fuel as [|n]; [simpl in Hfuel; lia|].
    right. apply in_flat_map. exists (body ++ rest). split.
    + apply filter_In. split.
      * simpl. rewrite Hc. now left.
      * apply Nat.ltb_lt. simpl. lia.
    + apply IH; [exact H | simpl in Hfuel; lia].
Qed.

Lemma in_alt_l ic r1 r2 b s s' :
  In s' (run ic r1 b s) -> In s' (run ic (r1 <|> r2) b s).
Proof. intros H. simpl. apply in_or_app. now left. Qed.

Lemma in_alt_r ic r1 r2 b s s' :
  In s' (run ic r2 b s) -> In s' (run ic (r1 <|> r2) b s).
Proof. intros H. simpl. apply in_or_app. now right. Qed.

Lemma in_opt_skip ic r b s : In s (run ic (Opt r) b s).
Proof. apply in_alt_r. now left. Qed.

Lemma in_star_dot_run ic b body :
  lineless body = true -> In [] (run ic (Star (Chr Dot)) b body).
Proof.
  intros H. change (In [] (iter (run ic (Chr Dot)) (List.length body) b body)).
  rewrite <- (app_nil_r body) at 2.
  apply in_star_dot; [exact H | rewrite app_nil_r; lia].
Qed.

Lemma in_path b path :
  path = [] \/ (exists rest, path = str "/" ++ rest /\ lineless rest = true) ->
  In [] (run true (Opt (Lit (str "/") ;; Star (Chr Dot)) ;; Eol) b path).
Proof.
  intros [->|(rest & -> & H)];
    (eapply in_seq with (b2 := false) (s1 := []);
     [reflexivity | | now left]).
  - apply in_opt_skip.
  - apply in_alt_l.
    eapply in_seq with (b2 := false); [reflexivity | apply in_lit |].
    now apply in_star_dot_run.
Qed.

Lemma sameIgnoringCase_app w1 w2 v :
  sameIgnoringCase (w1 ++ w2) v ->
  exists v1 v2, v = v1 ++ v2 /\ sameIgnoringCase w1 v1
                /\ sameIgnoringCase w2 v2.
Proof.
  unfold sameIgnoringCase. rewrite map_app. intros H.
  apply map_eq_app in H as (v1 & v2 & -> & H1 & H2). eauto.
Qed.

Lemma in_scheme b scheme rest :
  scheme = [] \/ sameIgnoringCase (str "http://") scheme
  \/ sameIgnoringCase (str "https://") scheme ->
  In rest (run true (Opt (Lit (str "http") ;; Opt (Lit (str "s"))
                          ;; Lit (str "://"))) b (scheme ++ rest)).
Proof.
  intros [->|[H|H]].
  - apply in_opt_skip.
  - change (str "http://") with (str "http" ++ str "://") in H.
    apply sameIgnoringCase_app in H as (v1 & v2 & -> & H1 & H2).
    apply in_alt_l. rewrite <- app_assoc.
    eapply in_seq with (b2 := false);
      [reflexivity | apply in_lit_ignoring_case, H1 |].
    eapply in_seq with (b2 := false) (s1 := v2 ++ rest);
      [reflexivity | apply in_opt_skip | apply in_lit_ignoring_case, H2].
  - change (str "https://") with (str "http" ++ str "s" ++ str "://") in H.
    apply sameIgnoringCase_app in H as (v1 & v' & -> & H1 & H).
    apply sameIgnoringCase_app in H as (v2 & v3 & -> & H2 & H3).
    apply in_alt_l. rewrite <- !app_assoc.
    eapply in_seq with (b2 := false);
      [reflexivity | apply in_lit_ignoring_case, H1 |].
    eapply in_seq with (b2 := false) (s1 := v3 ++ rest);
      [reflexivity | | apply in_lit_ignoring_case, H3].
    apply in_alt_l. now apply in_lit_ignoring_case.
Qed.

Lemma analytics_pattern scheme www host path :
  scheme = [] \/ sameIgnoringCase (str "http://") scheme
  \/ sameIgnoringCase (str "https://") scheme ->
  www = [] \/ sameIgnoringCase (str "www.") www ->
  (exists h, In h analyticsHosts /\ sameIgnoringCase h host) ->
  path = [] \/ (exists rest, path = str "/" ++ rest /\ lineless rest = true) ->
  existsb (fun pattern => test pattern (scheme ++ www ++ host ++ path))
    gaPatterns = true.
Proof.
  intros Hs Hw (h & Hh & Hhost) Hp.
  unfold gaPatterns. cbn [existsb]. apply orb_true_iff. left.
  unfold test. cbn [ignoreCase source].
  set (url := scheme ++ www ++ host ++ path).
  assert (Hin : In [] (run true
    (Bol ;; Opt (Lit (str "http") ;; Opt (Lit (str "s")) ;; Lit (str "://"))
     ;; Opt (Lit (str "www."))
     ;; (Lit (str "analytics.google.com")
         <|> Lit (str "www.google-analytics.com"))
     ;; Opt (Lit (str "/") ;; Star (Chr Dot)) ;; Eol) true url)).
  { eapply in_seq with (b2 := true) (s1 := url);
      [reflexivity | simpl; now left |].
    eapply in_seq with (b2 := false);
      [reflexivity | apply in_scheme, Hs |].
    eapply in_seq with (b2 := false) (s1 := host ++ path); [reflexivity| |].
    { destruct Hw as [->|Hw].
      - apply in_opt_skip.
      - apply in_alt_l. now apply in_lit_ignoring_case. }
    eapply in_seq with (b2 := false) (s1 := path);
      [reflexivity | | apply in_path, Hp].
    destruct Hh as [<-|[<-|[]]];
      [apply in_alt_l | apply in_alt_r]; now apply in_lit_ignoring_case. }
  revert Hin. generalize (Bol ;; Opt (Lit (str "http") ;; Opt (Lit (str "s")) ;; Lit (str "://"))
     ;; Opt (Lit (str "www."))
     ;; (Lit (str "analytics.google.com")
         <|> Lit (str "www.google-analytics.com"))
     ;; Opt (Lit (str "/") ;; Star (Chr Dot)) ;; Eol)%re. intros r Hin.
  destruct url; cbn [search]; destruct (run true r true _);
    try reflexivity; destruct Hin.
Qed.

(** The analytics hosts: [analytics.google.com] and
    [www.google-analytics.com], in any case of their letters, with or
    without a scheme and a [www.] before and a path after, are [GA],
    unless the media-file pattern matches the URL. *)
Theorem analytics_hosts_are_GA scheme www host path page :
  scheme = [] \/ sameIgnoringCase (str "http://") scheme
  \/ sameIgnoringCase (str "https://") scheme ->
  www = [] \/ sameIgnoringCase (str "www.") www ->
  (exists h, In h analyticsHosts /\ sameIgnoringCase h host) ->
  path = [] \/ (exists rest, path = str "/" ++ rest /\ lineless rest = true) ->
  test videoPattern (scheme ++ www ++ host ++ path) = false ->
  LinkType main financial_results (scheme ++ www ++ host ++ path) page = GA.
Proof.
  intros Hs Hw Hh Hp Hv. unfold LinkType.
  now rewrite Hv, analytics_pattern.
Qed.

(** *** What is classified [Video] *)

Lemma alt_inv r1 r2 b s s' :
  steps (r1 <|> r2) b s s' -> steps r1 b s s' \/ steps r2 b s s'.
Proof. inversion 1; subst; auto. Qed.

Lemma eps_inv b s s' : steps Eps b s s' -> s' = s.
Proof. now inversion 1. Qed.

Lemma eol_inv b s s' : steps Eol b s s' -> s = [] /\ s' = [].
Proof. now inversion 1. Qed.

Lemma star_dot_inv b s s' :
  steps (Star (Chr Dot)) b s s' ->
  exists x, s = x ++ s' /\ lineless x = true.
Proof.
  intros H. remember (Star (Chr Dot)) as r eqn:E.
  induction H; try discriminate; injection E as ->.
  - now exists [].
  - destruct (IHsteps2 eq_refl) as (x & -> & Hx).
    inversion H as [|? ? c ? Hc| | | | | | | |]; subst.
    exists (c :: x). split; [reflexivity|]. simpl in *. now rewrite Hc.
Qed.

Lemma video_ext_inv b s s' :
  steps (Lit (str "mp4") <|> Lit (str "webm") <|> Lit (str "ogg")
         <|> Lit (str "mp3") <|> Lit (str "wav") <|> Lit (str "m4a")
         <|> Lit (str "flac") <|> Lit (str "aac"))%re b s s' ->
  exists ext, In ext videoExtensions /\ s = ext ++ s'.
Proof.
  intros H. unfold videoExtensions. cbn [map].
  repeat (apply alt_inv in H as [H|H];
          [apply lit_inv in H; eexists; split; [|exact H]; simpl; tauto|]).
  apply lit_inv in H. eexists; split; [|exact H]. simpl; tauto.
Qed.

Lemma video_test_prefix pre secure body ext query :
  In ext videoExtensions -> lineless body = true ->
  match query with Some q => lineless q = true | None => True end ->
  test videoPattern (pre ++ mediaUrl secure body ext query) = true.
Proof.
  intros Hext Hbody Hq.
  pose proof (video_media secure body ext query Hext Hbody Hq) as H.
  apply test_iff in H as (p & rest & s' & E & H).
  apply test_iff. exists (pre ++ p), rest, s'. split.
  - now rewrite E, app_assoc.
  - eapply steps_flag; [reflexivity | exact H].
Qed.

(** What [Video] means: a URL is classified [Video] exactly when a media
    URL (scheme http or https, an extension of the list, then nothing or
    a query string, without line terminators) ends it; what stands
    before that media URL plays no part. *)
Theorem video_exactly_media_urls url page :
  LinkType main financial_results url page = Video <->
  exists pre secure body ext query,
    url = pre ++ mediaUrl secure body ext query
    /\ In ext videoExtensions /\ lineless body = true
    /\ match query with Some q => lineless q = true | None => True end.
Proof.
  split.
  - intros H.
    assert (Hv : test videoPattern url = true).
    { unfold LinkType in H.
      destruct (test videoPattern url); [reflexivity|].
      repeat match type of H with
             | (if ?c then _ else _) = _ => destruct c; try discriminate
             end. }
    clear H. apply test_iff in Hv as (pre & rest & s' & -> & H).
    apply seq_inv in H as (t1 & b1 & H1 & H). apply lit_inv in H1 as ->.
    apply seq_inv in H as (t2 & b2 & H2 & H).
    apply seq_inv in H as (t3 & b3 & H3 & H). apply lit_inv in H3 as ->.
    apply seq_inv in H as (t4 & b4 & H4 & H).
    apply star_dot_inv in H4 as (body & -> & Hbody).
    apply seq_inv in H as (t5 & b5 & H5 & H). apply lit_inv in H5 as ->.
    apply seq_inv in H as (t6 & b6 & H6 & H).
    apply video_ext_inv in H6 as (ext & Hext & ->).
    apply seq_inv in H as (t7 & b7 & H7 & H).
    apply eol_inv in H as [-> ->].
    assert (Hq : exists query,
               t6 = match query with Some q => str "?" ++ q | None => [] end
               /\ match query with
                  | Some q => lineless q = true
                  | None => True
                  end).
    { apply alt_inv in H7 as [H7|H7].
      - apply seq_inv in H7 as (u & bu & Hu & H7). apply lit_inv in Hu as ->.
        apply star_dot_inv in H7 as (q & -> & Hq).
        exists (Some q). rewrite app_nil_r. now split.
      - apply eps_inv in H7. exists None. now split. }
    destruct Hq as (query & -> & Hq).
    apply alt_inv in H2 as [H2|H2].
    + apply lit_inv in H2 as ->.
      exists pre, true, body, ext, query. now repeat split.
    + apply eps_inv in H2 as <-.
      exists pre, false, body, ext, query. now repeat split.
  - intros (pre & secure & body & ext & query & -> & Hext & Hbody & Hq).
    unfold LinkType. now rewrite video_test_prefix.
Qed.

(** A response with status 200 or 204 never fails the test, whatever
    its URL and the page. *)
Theorem ok_status_never_fails url page status :
  status = 200%Z \/ status = 204%Z ->
  onResponse main financial_results url page status <> Expect false.
Proof.
  intros [-> | ->]; unfold onResponse;
    destruct (LinkType main financial_results url page); discriminate.
Qed.

End ResponseFacts.
(** * Further properties of the locator composition *)

Section PageChecksFacts.

Import PageClass PageChecks.
Local Open Scope string_scope.

Ltac unfold_method :=
  cbn [resolve];
  unfold deleteElement, verifyDesing_element, verifyText, verifyAttribute,
    verifyCss, TestVisible, TestExist, writeInput, clearInput,
    verifyHypervincle, clickElement, hoverElement, waitfor.

Lemma addId_root o b l : root (addId o b l) = root l.
Proof. apply addId_extends. Qed.
Lemma addClasses_root o b l : root (addClasses o b l) = root l.
Proof. apply addClasses_extends. Qed.
Lemma addRole_root o b l : root (addRole o b l) = root l.
Proof. apply addRole_extends. Qed.
Lemma addTag_root o b l : root (addTag o b l) = root l.
Proof. apply addTag_extends. Qed.
Lemma addText_root o b l : root (addText o b l) = root l.
Proof. apply addText_extends. Qed.
Lemma addNth_root o l : root (addNth o l) = root l.
Proof. apply addNth_extends. Qed.

Lemma baseUpToRole_first m o :
  match baseUpToRole o with
  | Some (l, _) => firstSome (baseCandidates m o) = Some (root l)
  | None =>
      firstSome (baseCandidates m o)
      = if textIsBase m then option_map getByText (truthy (text o)) else None
  end.
Proof.
  unfold baseUpToRole, baseCandidates.
  destruct (truthy (testId o)), (truthy (id o)), (truthy (classes o)),
    (truthy (tag o)), (truthy (role o)); simpl; try reflexivity;
    destruct (textIsBase m), (truthy (text o)); reflexivity.
Qed.

(** The base of a resolved locator is the first criterion that is set,
    in the order test id, id, classes, tag, role and, where the method
    takes it, text; no refinement and no index changes it, and the
    method throws exactly when none of them is set. *)
Theorem base_is_first_set_criterion m o :
  match resolve m o with
  | Ok l => firstSome (baseCandidates m o) = Some (root l)
  | Throw _ => firstSome (baseCandidates m o) = None
  end.
Proof.
  pose proof (baseUpToRole_first m o) as H.
  destruct m; unfold_method; unfold baseWithText, baseWithoutText;
    destruct (baseUpToRole o) as [[l b]|]; cbn [bind textIsBase] in *;
    rewrite ?addNth_root, ?addText_root, ?addTag_root, ?addRole_root,
      ?addClasses_root, ?addId_root; try exact H;
    destruct (truthy (text o)); cbn [bind option_map] in *;
    rewrite ?addNth_root, ?addText_root, ?addTag_root, ?addRole_root,
      ?addClasses_root, ?addId_root; exact H.
Qed.

Ltac unfold_blocks :=
  unfold baseWithText, baseWithoutText, baseUpToRole, addId, addClasses,
    addRole, addTag, addText, addNth.

Lemma truthy_unlessEmpty field : truthy (unlessEmpty field) = truthy field.
Proof. destruct field as [[|c s]|]; reflexivity. Qed.

(** An empty string counts as an absent property: leaving the properties
    that hold the empty string out changes neither the locator nor the
    error. *)
Theorem empty_string_is_absent m o :
  resolve m (dropEmpty o) = resolve m o.
Proof.
  destruct m; unfold_method; unfold_blocks; cbn [dropEmpty testId id classes
    text role roleName tag nth]; rewrite !truthy_unlessEmpty; reflexivity.
Qed.

(** The index is applied last: the result is the locator the same
    options give without [nth], with [nth(n)] or [last()] called on it,
    also for the index 0. *)
Theorem index_is_applied_last m o :
  resolve m o =
  match resolve m (withNth o None) with
  | Ok l =>
      Ok match nth o with
         | Some (Index n) => Nth l n
         | Some LastOne => Last l
         | None => l
         end
  | Throw message => Throw message
  end.
Proof.
  destruct m; unfold_method; unfold baseWithText, baseWithoutText;
    change (baseUpToRole (withNth o None)) with (baseUpToRole o);
    change (text (withNth o None)) with (text o);
    destruct (baseUpToRole o) as [[l b]|]; cbn [bind]; try reflexivity;
    destruct (truthy (text o)); reflexivity.
Qed.

(** The methods that do not take [text] as a criterion locate the same
    element whatever [text] is. *)
Theorem text_unused_where_no_criterion m o t :
  textIsBase m = false -> resolve m (withText o t) = resolve m o.
Proof.
  destruct m; try discriminate; reflexivity.
Qed.

(** A [roleName] without a [role] has no effect. *)
Theorem roleName_needs_role m o r :
  truthy (role o) = None -> resolve m (withRoleName o r) = resolve m o.
Proof.
  intros H. destruct m; unfold_method; unfold_blocks;
    cbn [withRoleName testId id classes text role roleName tag nth];
    rewrite H; reflexivity.
Qed.

(** On the eight methods that hold every refinement block the locator
    is the base, which is the first criterion set, then one refinement
    for each other criterion that is set, in the order id, classes,
    role, tag, text, then the index; nothing else is applied and nothing
    twice. *)
Theorem full_methods_refine_by_every_other_criterion m o l :
  isFull m = true -> resolve m o = Ok l ->
  exists base,
    firstSetCriterion o = Some base
    /\ refinements l = expectedRefinements base o.
Proof.
  intros Hm.
  unfold firstSetCriterion, expectedRefinements, otherCriteria, refinementBy,
    indexRefinement, isSet, valueOf.
  destruct m; try discriminate; unfold_method; unfold_blocks;
    destruct (truthy (testId o)), (truthy (id o)), (truthy (classes o)),
      (truthy (tag o)), (truthy (role o)), (truthy (text o));
    cbn [bind isBase]; try discriminate;
    intros [= <-]; destruct (nth o) as [[n|]|];
    eexists; (split; [reflexivity|]); reflexivity.
Qed.

(** [testImage] looks at [testId], [role] and [nth] only: options that
    agree on these three give the same result.  When nothing else is set
    it asserts on the locator every resolving method gives; without a
    test id it asserts nothing, where those methods go on to the next
    criterion or throw. *)
Theorem testImage_reads_testId_role_nth m o :
  (forall o', testId o' = testId o -> role o' = role o -> nth o' = nth o ->
              testImage o' = testImage o)
  /\ (truthy (id o) = None -> truthy (classes o) = None ->
      truthy (tag o) = None -> truthy (text o) = None -> roleName o = None ->
      forall t, truthy (testId o) = Some t ->
      exists l, resolve m o = Ok l /\ testImage o = Some l)
  /\ (truthy (testId o) = None -> testImage o = None).
Proof.
  split; [|split].
  - intros o' H1 H2 H3. unfold testImage. now rewrite H1, H2, H3.
  - intros H1 H2 H3 H4 H5 t Ht. unfold testImage.
    destruct m; unfold_method; unfold_blocks;
      rewrite ?Ht, ?H1, ?H2, ?H3, ?H4, ?H5; cbn [bind isBase];
      destruct (truthy (role o)); cbn [isBase];
      destruct (nth o) as [[n|]|]; eexists; split; reflexivity.
  - intros H. unfold testImage. now rewrite H.
Qed.

(** *** The expectations of [TestTable] *)

Lemma indexed_length {A} (l : list A) : List.length (indexed l) = List.length l.
Proof.
  unfold indexed. rewrite length_combine, length_seq. apply Nat.min_id.
Qed.

Lemma in_combine_seq {A} (l : list A) start i x :
  nth_error l i = Some x ->
  In (start + i, x) (combine (seq start (List.length l)) l).
Proof.
  revert start i; induction l as [|a l IH]; intros start [|i] H;
    simpl in *; try discriminate.
  - injection H as ->. left. f_equal. lia.
  - right. replace (start + S i) with (S start + i) by lia. now apply IH.
Qed.

Lemma in_indexed {A} (l : list A) i x :
  nth_error l i = Some x -> In (i, x) (indexed l).
Proof. intros H. apply (in_combine_seq l 0 i x H). Qed.

Lemma headExpectations_length h t : List.length (headExpectations h t) = List.length h.
Proof. unfold headExpectations. now rewrite length_map, indexed_length. Qed.

Lemma body_length (rows : list (list string)) start :
  List.length
    (List.concat (map (fun '(i, row) => rowExpectations i row)
                    (combine (seq start (List.length rows)) rows)))
  = List.length (List.concat rows).
Proof.
  revert start; induction rows as [|row rows IH]; intros start; simpl;
    [reflexivity|].
  rewrite !length_app, IH. f_equal.
  unfold rowExpectations. now rewrite length_map, indexed_length.
Qed.

Lemma body_root (rows : list (list string)) start :
  Forall (fun e => root (fst e) = locator "tbody tr")
    (List.concat (map (fun '(i, row) => rowExpectations i row)
                    (combine (seq start (List.length rows)) rows))).
Proof.
  revert start; induction rows as [|row rows IH]; intros start; simpl;
    [constructor|].
  apply Forall_app. split; [|apply IH].
  unfold rowExpectations. apply Forall_forall. intros e He.
  apply in_map_iff in He as ([j v] & <- & _). reflexivity.
Qed.

(** [TestTable] awaits one expectation per header and one per cell,
    headers first.  Only the header cells are looked up inside the
    element with the test id: the rows are looked up on the whole page,
    so the expectations on the body are the same for every test id. *)
Theorem TestTable_scope headValues rows testId :
  List.length (TestTable headValues rows testId)
  = List.length headValues + List.length (List.concat rows)
  /\ Forall (fun e => root (fst e) = getByTestId testId)
       (firstn (List.length headValues) (TestTable headValues rows testId))
  /\ Forall (fun e => root (fst e) = locator "tbody tr")
       (skipn (List.length headValues) (TestTable headValues rows testId))
  /\ forall testId',
       skipn (List.length headValues) (TestTable headValues rows testId)
       = skipn (List.length headValues)
           (TestTable headValues rows testId').
Proof.
  unfold TestTable.
  assert (Hf : forall t X,
    firstn (List.length headValues) (headExpectations headValues t ++ X)
    = headExpectations headValues t).
  { intros t X. rewrite <- (headExpectations_length headValues t) at 1.
    rewrite firstn_app, firstn_all, Nat.sub_diag. simpl.
    apply app_nil_r. }
  assert (Hs : forall t X,
    skipn (List.length headValues) (headExpectations headValues t ++ X) = X).
  { intros t X. rewrite <- (headExpectations_length headValues t) at 1.
    rewrite skipn_app, skipn_all, Nat.sub_diag. reflexivity. }
  repeat split.
  - rewrite length_app, headExpectations_length. f_equal.
    apply body_length.
  - rewrite Hf. unfold headExpectations. apply Forall_forall. intros e He.
    apply in_map_iff in He as ([j v] & <- & _). reflexivity.
  - rewrite Hs. apply body_root.
  - intros t'. now rewrite !Hs.
Qed.

(** The value [rows[i][j]] is expected in the cell [j] of the row [i] of
    the page, and the value [headValues[k]] in the header cell [k] of
    the element with the test id. *)
Theorem TestTable_positions headValues rows testId :
  (forall k value,
     nth_error headValues k = Some value ->
     In (Nth (Within (OnPage (getByTestId testId)) (locator "thead tr th"))
           (Z.of_nat k), value)
        (TestTable headValues rows testId))
  /\ (forall i j row value,
        nth_error rows i = Some row -> nth_error row j = Some value ->
        In (Nth (Within (Nth (OnPage (locator "tbody tr")) (Z.of_nat i))
                   (locator "td")) (Z.of_nat j), value)
           (TestTable headValues rows testId)).
Proof.
  unfold TestTable. split.
  - intros k value H. apply in_or_app. left. unfold headExpectations.
    apply in_map_iff. exists (k, value). split; [reflexivity|].
    now apply in_indexed.
  - intros i j row value Hi Hj. apply in_or_app. right.
    apply in_concat. exists (rowExpectations i row). split.
    + apply in_map_iff. exists (i, row). split; [reflexivity|].
      now apply in_indexed.
    + unfold rowExpectations. apply in_map_iff. exists (j, value).
      split; [reflexivity | now apply in_indexed].
Qed.

End PageChecksFacts.
(** * Properties of [verifyStatusAndSecurityHeaders] *)

Section SecurityHeadersFacts.

Import SecurityHeaders.
Local Open Scope string_scope.

Lemma firstMissing_none headers names :
  firstMissing headers names = None <->
  Forall (fun n => header headers n <> None) names.
Proof.
  induction names as [|n names IH]; simpl.
  - split; [constructor | reflexivity].
  - destruct (header headers n) eqn:E.
    + rewrite IH. split.
      * intros H. constructor; [congruence | exact H].
      * now inversion 1.
    + split; [discriminate|]. inversion 1; subst. congruence.
Qed.

(** No response and no failed expectation makes the method throw: what
    is thrown inside the [try] is caught and only written to the
    console.  The method throws exactly when the navigation is rejected
    with [null] or [undefined], which its [catch] cannot read the
    message of.  It returns with nothing written exactly when the status
    is 200, the six security headers are present and [monitoring-id] has
    the expected value. *)
Theorem security_check_only_logs g monitoringId :
  (fst (verifyStatusAndSecurityHeaders g monitoringId) = ThrowsTypeError <->
   g = Rejected nullish)
  /\ (verifyStatusAndSecurityHeaders g monitoringId = (Completes, []) <->
      exists headers,
        g = Response 200 headers
        /\ Forall (fun n => header headers n <> None) securityHeaders
        /\ header headers "monitoring-id" = Some monitoringId).
Proof.
  unfold verifyStatusAndSecurityHeaders, tryBlock. split.
  - destruct g as [[|message]| |status headers]; cbn [fst].
    + split; reflexivity.
    + split; discriminate.
    + split; discriminate.
    + destruct (negb (status =? 200)%Z),
        (firstMissing headers securityHeaders),
        (sameValue (header headers "monitoring-id") monitoringId);
        split; discriminate.
  - destruct g as [[|message]| |status headers].
    + split; [discriminate | intros (h & E & _); discriminate].
    + split; [discriminate | intros (h & E & _); discriminate].
    + split; [discriminate | intros (h & E & _); discriminate].
    + destruct (Z.eqb_spec status 200) as [->|Hs]; cbn [negb].
      * destruct (firstMissing headers securityHeaders) eqn:F.
        { split; [discriminate|]. intros (h & [= <-] & Hall & _).
          apply firstMissing_none in Hall. congruence. }
        apply firstMissing_none in F.
        destruct (header headers "monitoring-id") as [v|] eqn:Hm;
          cbn [sameValue].
        { destruct (String.eqb_spec v monitoringId) as [->|Hv].
          - split; [|reflexivity]. intros _. exists headers. now repeat split.
          - split; [discriminate|]. intros (h & [= <-] & _ & E).
            congruence. }
        split; [discriminate|]. intros (h & [= <-] & _ & E). congruence.
      * split; [discriminate|]. intros (h & [= E _] & _). congruence.
Qed.

End SecurityHeadersFacts.
(** * Properties of [getWorkingMailSlurp] *)

Section MailSlurpFacts.

Import MailSlurpKeys.

Variable Inbox : Type.
Variable createInbox : nat -> jsstring -> option Inbox.

Lemma tryKeys_found attempt keys warnings key inbox :
  tryKeys Inbox createInbox attempt keys = (warnings, Some (key, inbox)) ->
  exists n,
    nth_error keys n = Some key
    /\ createInbox (attempt + n) key = Some inbox
    /\ (forall j k, j < n -> nth_error keys j = Some k ->
                    createInbox (attempt + j) k = None)
    /\ warnings = map warning (firstn n keys).
Proof.
  revert attempt warnings; induction keys as [|k keys IH];
    intros attempt warnings; simpl; [discriminate|].
  destruct (createInbox attempt k) as [i|] eqn:E.
  - intros [= <- <- <-]. exists 0. rewrite Nat.add_0_r.
    repeat split; auto. intros j k' Hj. lia.
  - destruct (tryKeys Inbox createInbox (S attempt) keys) as [w f] eqn:T.
    intros [= <- ->]. destruct (IH _ _ T) as (n & H1 & H2 & H3 & H4).
    exists (S n). rewrite Nat.add_succ_r. repeat split; auto.
    + intros [|j] k' Hj Hk; simpl in Hk.
      * injection Hk as <-. now rewrite Nat.add_0_r.
      * rewrite Nat.add_succ_r. apply (H3 j k'); [lia | exact Hk].
    + simpl. now rewrite H4.
Qed.

Lemma tryKeys_none attempt keys :
  snd (tryKeys Inbox createInbox attempt keys) = None <->
  forall j k, nth_error keys j = Some k -> createInbox (attempt + j) k = None.
Proof.
  revert attempt; induction keys as [|k keys IH]; intros attempt; simpl.
  - split; [intros _ [|j] k' H; discriminate | reflexivity].
  - destruct (createInbox attempt k) as [i|] eqn:E.
    + split; [discriminate|]. intros H.
      specialize (H 0 k eq_refl). rewrite Nat.add_0_r in H. congruence.
    + destruct (tryKeys Inbox createInbox (S attempt) keys) as [w f] eqn:T.
      specialize (IH (S attempt)). rewrite T in IH. simpl in *.
      rewrite IH. split.
      * intros H [|j] k' Hk; simpl in Hk.
        { injection Hk as <-. now rewrite Nat.add_0_r. }
        rewrite Nat.add_succ_r. now apply (H j k').
      * intros H j k' Hk. specialize (H (S j) k' Hk).
        now rewrite Nat.add_succ_r in H.
Qed.

Lemma tryKeys_none_warnings attempt keys :
  snd (tryKeys Inbox createInbox attempt keys) = None ->
  fst (tryKeys Inbox createInbox attempt keys) = map warning keys.
Proof.
  revert attempt; induction keys as [|k keys IH]; intros attempt; simpl;
    [reflexivity|].
  destruct (createInbox attempt k); [discriminate|].
  specialize (IH (S attempt)).
  destruct (tryKeys Inbox createInbox (S attempt) keys) as [w f].
  simpl in *. intros H. now rewrite IH.
Qed.

(** The key returned is the first, in the order tried, whose
    [createInbox] succeeds, with the inbox that call made; one warning
    was written for each key before it, showing its first eight code
    units. *)
Theorem first_working_key_is_returned env warnings key inbox :
  getWorkingMailSlurp Inbox createInbox env = (warnings, Some (key, inbox)) ->
  exists n,
    nth_error (keysToTry env) n = Some key
    /\ createInbox n key = Some inbox
    /\ (forall j k, j < n -> nth_error (keysToTry env) j = Some k ->
                    createInbox j k = None)
    /\ warnings = map warning (firstn n (keysToTry env)).
Proof.
  intros H. apply tryKeys_found in H. exact H.
Qed.

(** The function throws exactly when [createInbox] fails for every key
    it tries, and then it has written a warning for each of them. *)
Theorem throws_when_every_key_fails env :
  (snd (getWorkingMailSlurp Inbox createInbox env) = None <->
   forall j k, nth_error (keysToTry env) j = Some k -> createInbox j k = None)
  /\ (snd (getWorkingMailSlurp Inbox createInbox env) = None ->
      fst (getWorkingMailSlurp Inbox createInbox env)
      = map warning (keysToTry env)).
Proof.
  split.
  - apply (tryKeys_none 0).
  - apply tryKeys_none_warnings.
Qed.

(** *** The keys read from the environment *)

Lemma split_pieces_lack separator s :
  Forall (fun piece => lacks separator piece = true) (split separator s).
Proof.
  induction s as [|c s IH]; simpl; [repeat constructor|].
  destruct (N.eqb_spec c separator) as [->|Hc].
  - constructor; [reflexivity | exact IH].
  - destruct (split separator s) as [|piece pieces];
      [repeat constructor; simpl; apply N.eqb_neq in Hc; now rewrite Hc|].
    inversion IH; subst. constructor; [|assumption].
    simpl. apply N.eqb_neq in Hc. now rewrite Hc.
Qed.

Lemma split_lacking separator k :
  lacks separator k = true -> split separator k = [k].
Proof.
  induction k as [|c k IH]; simpl; [reflexivity|].
  intros H. apply andb_true_iff in H as [Hc H].
  destruct (N.eqb c separator); [discriminate|]. now rewrite IH.
Qed.

Lemma split_piece separator k s :
  lacks separator k = true ->
  split separator (k ++ separator :: s) = k :: split separator s.
Proof.
  induction k as [|c k IH]; simpl.
  - now rewrite N.eqb_refl.
  - intros H. apply andb_true_iff in H as [Hc H].
    destruct (N.eqb c separator); [discriminate|]. now rewrite IH.
Qed.

Lemma split_joinComma keys :
  keys <> [] -> Forall (fun k => lacks comma k = true) keys ->
  split comma (joinComma keys) = keys.
Proof.
  induction keys as [|k keys IH]; [congruence|]. intros _ H.
  inversion H as [|? ? Hk Hks]; subst.
  destruct keys as [|k' keys'].
  - simpl. rewrite app_nil_r. now apply split_lacking.
  - change (joinComma (k :: k' :: keys'))
      with (k ++ comma :: joinComma (k' :: keys')).
    rewrite split_piece by exact Hk. f_equal. apply IH; [discriminate|].
    exact Hks.
Qed.

Lemma trimStart_suffix s : exists pre, s = pre ++ trimStart s.
Proof.
  induction s as [|c s [pre IH]]; simpl; [now exists []|].
  destruct (whiteSpace c).
  - exists (c :: pre). simpl. now f_equal.
  - now exists [].
Qed.

Lemma trimStart_head s c r : trimStart s = c :: r -> whiteSpace c = false.
Proof.
  induction s as [|a s IH]; simpl; [discriminate|].
  destruct (whiteSpace a) eqn:E; [exact IH|]. now intros [= <- _].
Qed.

Lemma trimStart_fixed c r : whiteSpace c = false -> trimStart (c :: r) = c :: r.
Proof. intros H. simpl. now rewrite H. Qed.

Lemma trimEnd_prefix s : exists post, s = trimEnd s ++ post.
Proof.
  unfold trimEnd. destruct (trimStart_suffix (rev s)) as [pre E].
  exists (rev pre). rewrite <- rev_app_distr, <- E. now rewrite rev_involutive.
Qed.

Lemma rev_last (s : jsstring) d :
  s <> [] -> rev s = last s d :: rev (removelast s).
Proof.
  intros H. rewrite (app_removelast_last d H) at 1.
  now rewrite rev_app_distr.
Qed.

Lemma trimEnd_last s d : trimEnd s <> [] -> whiteSpace (last (trimEnd s) d) = false.
Proof.
  unfold trimEnd. destruct (trimStart (rev s)) as [|c r] eqn:E;
    [now intros []|].
  intros _. simpl. rewrite last_last. eapply trimStart_head, E.
Qed.

Lemma trim_clean k : cleanKey k = true -> trim k = k.
Proof.
  unfold cleanKey. intros H.
  apply andb_true_iff in H as [H Hl]. apply andb_true_iff in H as [H Hh].
  apply andb_true_iff in H as [Hn _].
  destruct k as [|c r]; [discriminate|]. simpl in Hh.
  apply negb_true_iff in Hh, Hl.
  unfold trim. rewrite (trimStart_fixed c r Hh). unfold trimEnd.
  rewrite (rev_last (c :: r) 0%N) by discriminate.
  rewrite (trimStart_fixed _ _ Hl).
  rewrite <- (rev_last (c :: r) 0%N) by discriminate.
  apply rev_involutive.
Qed.

Lemma trim_is_clean piece :
  lacks comma piece = true -> trim piece <> [] ->
  cleanKey (trim piece) = true.
Proof.
  intros Hp Hne. unfold cleanKey.
  destruct (trimStart_suffix piece) as [pre E1].
  destruct (trimEnd_prefix (trimStart piece)) as [post E2].
  fold (trim piece) in E2.
  assert (Hc : lacks comma (trim piece) = true).
  { rewrite E1, E2, !lacks_app in Hp.
    apply andb_true_iff in Hp as [_ Hp].
    now apply andb_true_iff in Hp as [Hp _]. }
  rewrite Hc. destruct (trim piece) as [|c r] eqn:T; [congruence|].
  cbn [isnil negb andb hd].
  assert (Hh : whiteSpace c = false).
  { apply (trimStart_head piece c (r ++ post)). now rewrite E2. }
  rewrite Hh. cbn [negb andb]. rewrite <- T.
  unfold trim. rewrite trimEnd_last; [reflexivity|].
  fold (trim piece). now rewrite T.
Qed.

(** Every key read from the variable is clean: not empty, without a
    comma and without white space at its ends, whatever the variable
    holds. *)
Theorem env_keys_are_clean env :
  Forall (fun k => cleanKey k = true) (envKeys env).
Proof.
  unfold envKeys. apply Forall_forall. intros k Hk.
  apply filter_In in Hk as [Hk Hne].
  apply in_map_iff in Hk as (piece & <- & Hp).
  pose proof (split_pieces_lack comma
                (match env with Some e => e | None => [] end)) as Hall.
  rewrite Forall_forall in Hall. apply trim_is_clean; [now apply Hall|].
  destruct (trim piece); [discriminate | discriminate].
Qed.

(** Clean keys joined with commas are read back as they were, and when
    there is at least one they are the keys tried, in place of the
    built-in ones. *)
Theorem env_keys_round_trip keys :
  Forall (fun k => cleanKey k = true) keys ->
  envKeys (Some (joinComma keys)) = keys
  /\ (keys <> [] -> keysToTry (Some (joinComma keys)) = keys).
Proof.
  intros H.
  assert (E : envKeys (Some (joinComma keys)) = keys).
  { unfold envKeys. destruct keys as [|k keys']; [reflexivity|].
    rewrite split_joinComma; [|discriminate|].
    - induction H as [|a l Ha Hl IH]; [reflexivity|].
      simpl. rewrite (trim_clean a Ha).
      unfold cleanKey in Ha. destruct a; [discriminate|].
      simpl. now f_equal.
    - eapply Forall_impl; [|exact H]. intros a Ha. unfold cleanKey in Ha.
      apply andb_true_iff in Ha as [Ha _]. apply andb_true_iff in Ha as [Ha _].
      now apply andb_true_iff in Ha as [_ Ha]. }
  split; [exact E|]. intros Hne. unfold keysToTry. rewrite E.
  destruct keys; [congruence | reflexivity].
Qed.

(** A variable that is not set, or holds only commas and white space,
    leaves the built-in keys to be tried. *)
Theorem blank_env_falls_back env :
  match env with
  | Some e => forallb (fun c => whiteSpace c || N.eqb c comma) e = true
  | None => True
  end ->
  keysToTry env = apiKeys.
Proof.
  intros H.
  assert (E : envKeys env = []); [|unfold keysToTry; now rewrite E].
  unfold envKeys. destruct env as [e|]; [|reflexivity].
  assert (Hall : Forall (fun piece => forallb whiteSpace piece = true)
                   (split comma e)).
  { induction e as [|c e IH]; simpl; [repeat constructor|].
    simpl in H. apply andb_true_iff in H as [Hc H]. specialize (IH H).
    destruct (N.eqb_spec c comma) as [->|Hn].
    - constructor; [reflexivity | exact IH].
    - apply orb_true_iff in Hc as [Hc|Hc]; [|discriminate].
      destruct (split comma e) as [|piece pieces];
        [repeat constructor; simpl; now rewrite Hc|].
      inversion IH; subst. constructor; [|assumption].
      simpl. now rewrite Hc. }
  induction Hall as [|piece pieces Hp _ IH]; [reflexivity|].
  simpl. assert (T : trim piece = []).
  { unfold trim. assert (S0 : trimStart piece = []).
    { clear -Hp. induction piece as [|c r IH]; [reflexivity|].
      simpl in *. apply andb_true_iff in Hp as [Hc Hr].
      rewrite Hc. now apply IH. }
    now rewrite S0. }
  rewrite T. simpl. exact IH.
Qed.

End MailSlurpFacts.
(** * The further properties at concrete inputs *)

Lemma default_accepts_what_tags_accept_witness :
  responseCheck Video 304 = Expect true
  /\ responseCheck NONE 304 = Expect true.
Proof.
  split; [reflexivity|].
  apply (default_accepts_what_tags_accept Video 304). reflexivity.
Defined.

Lemma error_status_fails_witness :
  onResponse exampleMain exampleFinancialResults exampleApiCall exampleMain
    404 = Expect false.
Proof.
  rewrite error_status_fails by (right; lia). vm_compute. reflexivity.
Defined.

Lemma media_checked_on_every_page_witness :
  onResponse exampleMain exampleFinancialResults
    (mediaUrl true (str "example.com/media/report") (str "mp4") None)
    exampleFinancialPage 404 = Expect false.
Proof.
  rewrite media_checked_on_every_page.
  - reflexivity.
  - left. reflexivity.
  - vm_compute. reflexivity.
  - exact I.
Defined.

Lemma financial_page_unchecked_witness :
  onResponse exampleMain exampleFinancialResults exampleApiCall
    (exampleMain ++ exampleFinancialResults) 500 = NoCheck.
Proof.
  apply financial_page_unchecked. vm_compute. reflexivity.
Defined.

Lemma ignore_lists_are_exact_witness :
  LinkType exampleMain exampleFinancialResults
    (exampleMain ++ str "api/subscribe") exampleMain = Ignore
  /\ LinkType exampleMain exampleFinancialResults
       (exampleMain ++ str "api/subscribe?x=1") exampleMain = NONE.
Proof.
  split.
  - apply ignore_lists_are_exact; [vm_compute; reflexivity|].
    left. right. left. reflexivity.
  - apply ignore_lists_are_exact; [vm_compute; reflexivity|].
    vm_compute. intros [[H|[H|[H|[]]]]|H]; discriminate.
Defined.

Lemma ad_ping_is_GA_witness :
  LinkType exampleMain exampleFinancialResults
    ([] ++ str "https://googleads.g.doubleclick.net/pagead/id"
        ++ str "?slf_rd=1") exampleMain = GA.
Proof.
  apply (ad_ping_is_GA exampleMain exampleFinancialResults []
           (str "?slf_rd=1") exampleMain).
  vm_compute. reflexivity.
Defined.

Lemma recaptcha_is_Ignore_witness :
  LinkType exampleMain exampleFinancialResults
    ([] ++ str "https://www.google.com/recaptcha/" ++ str "api.js")
    exampleMain = Ignore.
Proof.
  apply (recaptcha_is_Ignore exampleMain exampleFinancialResults []
           (str "api.js") exampleMain); vm_compute; reflexivity.
Defined.

Lemma youtube_shapes_are_YT_witness :
  LinkType exampleMain exampleFinancialResults
    ([] ++ str "https://" ++ str "www." ++ str "youtube.com/"
        ++ str "shorts/" ++ 97%N :: str "bc?feature=share")
    exampleMain = YT.
Proof.
  apply (youtube_shapes_are_YT exampleMain exampleFinancialResults true
           (str "shorts/") 97%N [] (str "bc?feature=share") exampleMain).
  - do 13 right. left. reflexivity.
  - reflexivity.
  - vm_compute. reflexivity.
  - vm_compute. reflexivity.
Defined.

Lemma analytics_hosts_are_GA_witness :
  LinkType exampleMain exampleFinancialResults
    (str "HTTPS://" ++ [] ++ str "WWW.Google-Analytics.COM"
       ++ str "/g/collect?v=2")
    exampleMain = GA.
Proof.
  apply analytics_hosts_are_GA.
  - right. right. reflexivity.
  - left. reflexivity.
  - exists (str "www.google-analytics.com"). split; [|reflexivity].
    right. left. reflexivity.
  - right. exists (str "g/collect?v=2"). split; reflexivity.
  - vm_compute. reflexivity.
Defined.

Lemma video_exactly_media_urls_witness :
  LinkType exampleMain exampleFinancialResults
    (str "ftp://mirror/?u="
       ++ mediaUrl false (str "example.com/a") (str "webm") (Some (str "v=1")))
    exampleMain = Video.
Proof.
  apply video_exactly_media_urls.
  exists (str "ftp://mirror/?u="), false, (str "example.com/a"), (str "webm"),
    (Some (str "v=1")).
  split; [reflexivity|]. split; [right; left; reflexivity|].
  split; vm_compute; reflexivity.
Defined.

Lemma ok_status_never_fails_witness :
  onResponse exampleMain exampleFinancialResults exampleWatchMedia
    exampleMain 204 <> Expect false.
Proof. apply ok_status_never_fails. right. reflexivity. Defined.

Lemma text_unused_where_no_criterion_witness :
  PageClass.resolve PageClass.VerifyText
    (PageChecks.withText PageClass.testIdAndId (Some "Submit"%string))
  = PageClass.resolve PageClass.VerifyText PageClass.testIdAndId.
Proof. apply text_unused_where_no_criterion. reflexivity. Defined.

Lemma roleName_needs_role_witness :
  PageClass.resolve PageClass.ClickElement
    (PageChecks.withRoleName PageClass.testIdAndId
       (Some {| PageClass.name := "Save"%string; PageClass.exact := None |}))
  = PageClass.resolve PageClass.ClickElement PageClass.testIdAndId.
Proof. apply roleName_needs_role. reflexivity. Defined.

Lemma empty_string_is_absent_witness :
  PageClass.resolve PageClass.ClickElement PageChecks.emptyTestIdAndId
  = PageClass.Ok (PageClass.OnPage (PageClass.locator "#y"%string)).
Proof.
  rewrite <- (empty_string_is_absent PageClass.ClickElement
                PageChecks.emptyTestIdAndId).
  reflexivity.
Defined.

Lemma full_methods_refine_by_every_other_criterion_witness :
  exists base,
    PageChecks.firstSetCriterion PageChecks.everyCriterion = Some base
    /\ PageClass.refinements
         (PageClass.Nth
            (PageClass.FilterHasText
               (PageClass.Within
                  (PageClass.Within
                     (PageClass.Within
                        (PageClass.OnPage (PageClass.locator "#buy"%string))
                        (PageClass.locator ".primary"%string))
                     (PageClass.getByRole "button"%string
                        (Some {| PageClass.name := "Buy now"%string;
                                 PageClass.exact := Some true |})))
                  (PageClass.locator "span"%string))
               "Buy"%string) 0)
       = PageChecks.expectedRefinements base PageChecks.everyCriterion.
Proof.
  apply (full_methods_refine_by_every_other_criterion PageClass.WriteInput);
    reflexivity.
Defined.

Lemma testImage_reads_testId_role_nth_witness :
  PageChecks.testImage PageChecks.heroImageAndMore
  = PageChecks.testImage PageChecks.heroImage
  /\ (exists l,
        PageClass.resolve PageClass.HoverElement PageChecks.heroImage
        = PageClass.Ok l
        /\ PageChecks.testImage PageChecks.heroImage = Some l)
  /\ PageChecks.testImage PageClass.onlyText = None.
Proof.
  destruct (testImage_reads_testId_role_nth PageClass.HoverElement
              PageChecks.heroImage) as (H1 & H2 & _).
  destruct (testImage_reads_testId_role_nth PageClass.HoverElement
              PageClass.onlyText) as (_ & _ & H3).
  split; [|split].
  - apply H1; reflexivity.
  - apply (H2 eq_refl eq_refl eq_refl eq_refl eq_refl "hero"%string eq_refl).
  - apply H3. reflexivity.
Defined.

Lemma TestTable_positions_witness :
  In (PageClass.Nth
        (PageClass.Within
           (PageClass.Nth
              (PageClass.OnPage (PageClass.locator "tbody tr"%string)) 1)
           (PageClass.locator "td"%string)) 0,
      "b1"%string)
     (PageChecks.TestTable ["A"; "B"]%string
        [["a0"; "a1"]; ["b1"]]%string "prices"%string).
Proof.
  apply (proj2 (TestTable_positions ["A"; "B"]%string
                  [["a0"; "a1"]; ["b1"]]%string "prices"%string)
           1 0 ["b1"]%string "b1"%string); reflexivity.
Defined.

Lemma security_check_only_logs_witness :
  SecurityHeaders.verifyStatusAndSecurityHeaders
    (SecurityHeaders.Response 200
       [("x-xss-protection", "0"); ("strict-transport-security", "max-age=1");
        ("x-frame-options", "DENY"); ("x-content-type-options", "nosniff");
        ("content-security-policy", "default-src"); ("referrer-policy", "no-referrer");
        ("monitoring-id", "m-1")]%string)
    "m-1"%string = (SecurityHeaders.Completes, [])
  /\ fst (SecurityHeaders.verifyStatusAndSecurityHeaders
            (SecurityHeaders.Rejected SecurityHeaders.nullish) "m-1"%string)
     = SecurityHeaders.ThrowsTypeError.
Proof.
  split.
  - apply security_check_only_logs. eexists. split; [reflexivity|].
    split; [|reflexivity]. repeat constructor; discriminate.
  - apply security_check_only_logs. reflexivity.
Defined.

Lemma first_working_key_is_returned_witness :
  exists n,
    nth_error (MailSlurpKeys.keysToTry None) n
    = Some (nth 1 MailSlurpKeys.apiKeys [])
    /\ (fun attempt (_ : jsstring) => if Nat.eqb attempt 1 then Some 7 else None)
         n (nth 1 MailSlurpKeys.apiKeys []) = Some 7
    /\ (forall j k, j < n ->
          nth_error (MailSlurpKeys.keysToTry None) j = Some k ->
          (fun attempt (_ : jsstring) =>
             if Nat.eqb attempt 1 then Some 7 else None) j k = None)
    /\ [str "MailSlurp API key failed: 245ff1a2..."]
       = map MailSlurpKeys.warning
           (firstn n (MailSlurpKeys.keysToTry None)).
Proof.
  apply (first_working_key_is_returned nat
           (fun attempt _ => if Nat.eqb attempt 1 then Some 7 else None)
           None [str "MailSlurp API key failed: 245ff1a2..."]
           (nth 1 MailSlurpKeys.apiKeys []) 7).
  vm_compute. reflexivity.
Defined.

Lemma throws_when_every_key_fails_witness :
  snd (MailSlurpKeys.getWorkingMailSlurp nat (fun _ _ => None)
         (Some (str "k1, k2"))) = None
  /\ fst (MailSlurpKeys.getWorkingMailSlurp nat (fun _ _ => None)
            (Some (str "k1, k2")))
     = map MailSlurpKeys.warning [str "k1"; str "k2"].
Proof.
  assert (H : snd (MailSlurpKeys.getWorkingMailSlurp nat (fun _ _ => None)
                     (Some (str "k1, k2"))) = None).
  { apply (throws_when_every_key_fails nat (fun _ _ => None)). reflexivity. }
  split; [exact H|].
  exact (proj2 (throws_when_every_key_fails nat (fun _ _ => None)
                  (Some (str "k1, k2"))) H).
Defined.

Lemma env_keys_round_trip_witness :
  MailSlurpKeys.envKeys
    (Some (MailSlurpKeys.joinComma [str "key-1"; str "key 2"]))
  = [str "key-1"; str "key 2"]
  /\ MailSlurpKeys.keysToTry
       (Some (MailSlurpKeys.joinComma [str "key-1"; str "key 2"]))
     = [str "key-1"; str "key 2"].
Proof.
  destruct (env_keys_round_trip [str "key-1"; str "key 2"]) as [H1 H2].
  - repeat constructor.
  - split; [exact H1|]. apply H2. discriminate.
Defined.

Lemma blank_env_falls_back_witness :
  MailSlurpKeys.keysToTry (Some (str " , ,")) = MailSlurpKeys.apiKeys.
Proof. apply blank_env_falls_back. reflexivity. Defined.
